(** * The preview server of [src/lib/run.js]

    A shallow embedding of the request router that [run()] installs:
    the fetch serializer [sendFile], the by-extension dispatcher
    [sendByExt], [sendFileContent], the instrumentation injector
    [sendHTML], the path resolver [getRelativePath], the heading
    [slugify] callback and the bind/retry loop of [startServer].

    JavaScript strings are modelled as [string] (sequences of 8-bit
    characters), so the text-level results are about ASCII text. *)

From Stdlib Require Import String Ascii List Bool Arith ZArith Lia.
Import ListNotations.
Local Open Scope string_scope.
Local Open Scope list_scope.

(* ================================================================== *)
(** * Part I: definitions                                              *)
(* ================================================================== *)

(** ** The methods of [String.prototype] that [run.js] calls *)

Module JsString.

(** [s.startsWith(p)] *)
Definition startsWith (s p : string) : bool := String.prefix p s.

(** [s.slice(n)] for [0 <= n] *)
Fixpoint slice_from (n : nat) (s : string) : string :=
  match n, s with
  | O, _ => s
  | S _, EmptyString => EmptyString
  | S k, String _ s' => slice_from k s'
  end.

(** [s.slice(0, n)] *)
Fixpoint slice_to (n : nat) (s : string) : string :=
  match n, s with
  | O, _ => EmptyString
  | S _, EmptyString => EmptyString
  | S k, String c s' => String c (slice_to k s')
  end.

(** [s.slice(-n)] for [1 <= n <= s.length] *)
Definition slice_last (n : nat) (s : string) : string :=
  slice_from (String.length s - n) s.

(** [s.includes(p)] *)
Fixpoint includes (s p : string) : bool :=
  String.prefix p s ||
  match s with
  | EmptyString => false
  | String _ s' => includes s' p
  end.

(** [s.endsWith(p)] *)
Definition endsWith (s p : string) : bool :=
  (String.length p <=? String.length s)%nat &&
  String.eqb (slice_last (String.length p) s) p.

(** [s.split(sep)] for a non-empty separator.  [skip] counts the
    characters of a separator occurrence that are still to be passed. *)
Fixpoint split_go (sep : string) (skip : nat) (s : string) : list string :=
  match s with
  | EmptyString => [EmptyString]
  | String c s' =>
      match skip with
      | S k => split_go sep k s'
      | O =>
          if String.prefix sep s
          then EmptyString :: split_go sep (String.length sep - 1) s'
          else match split_go sep 0 s' with
               | h :: t => String c h :: t
               | [] => [String c EmptyString]
               end
      end
  end.

Definition split (s sep : string) : list string := split_go sep 0 s.

(** [parts.join(sep)] *)
Definition join (parts : list string) (sep : string) : string :=
  String.concat sep parts.

(** [s.replace(pat, rep)] with a string pattern: the first occurrence. *)
Fixpoint replace_first (pat rep s : string) : string :=
  if String.prefix pat s
  then rep ++ slice_from (String.length pat) s
  else match s with
       | EmptyString => EmptyString
       | String c s' => String c (replace_first pat rep s')
       end.

(** [s.replace(/pat/g, rep)] where the pattern is literal text. *)
Fixpoint replace_all_go (pat rep : string) (skip : nat) (s : string) : string :=
  match s with
  | EmptyString => EmptyString
  | String c s' =>
      match skip with
      | S k => replace_all_go pat rep k s'
      | O =>
          if String.prefix pat s
          then rep ++ replace_all_go pat rep (String.length pat - 1) s'
          else String c (replace_all_go pat rep 0 s')
      end
  end.

Definition replace_all (pat rep s : string) : string :=
  replace_all_go pat rep 0 s.

Definition is_slash (c : ascii) : bool := Ascii.eqb c "/".

(** [s.replace(/^\/+/, '')]: leading slashes removed *)
Fixpoint strip_leading_slashes (s : string) : string :=
  match s with
  | String c s' => if is_slash c then strip_leading_slashes s' else s
  | EmptyString => EmptyString
  end.

(** [s.replace(/\/+$/, '')]: trailing slashes removed *)
Fixpoint strip_trailing_slashes (s : string) : string :=
  match s with
  | EmptyString => EmptyString
  | String c s' =>
      let r := strip_trailing_slashes s' in
      if is_slash c && String.eqb r EmptyString then EmptyString
      else String c r
  end.

Definition is_upper (c : ascii) : bool :=
  ((65 <=? nat_of_ascii c) && (nat_of_ascii c <=? 90))%nat.

Definition lower_char (c : ascii) : ascii :=
  if is_upper c then ascii_of_nat (nat_of_ascii c + 32) else c.

(** [s.toLowerCase()] on ASCII text *)
Fixpoint toLowerCase (s : string) : string :=
  match s with
  | EmptyString => EmptyString
  | String c s' => String (lower_char c) (toLowerCase s')
  end.

(** The white space that [trim] removes, within ASCII:
    TAB, LF, VT, FF, CR and SPACE. *)
Definition is_space (c : ascii) : bool :=
  let n := nat_of_ascii c in (((9 <=? n) && (n <=? 13)) || (n =? 32))%nat.

Fixpoint trimStart (s : string) : string :=
  match s with
  | String c s' => if is_space c then trimStart s' else s
  | EmptyString => EmptyString
  end.

Fixpoint trimEnd (s : string) : string :=
  match s with
  | EmptyString => EmptyString
  | String c s' =>
      let r := trimEnd s' in
      if is_space c && String.eqb r EmptyString then EmptyString
      else String c r
  end.

(** [s.trim()] *)
Definition trim (s : string) : string := trimEnd (trimStart s).

(** JavaScript truthiness of a string, and of a possibly undefined one. *)
Definition truthy (s : string) : bool := negb (String.eqb s EmptyString).

Definition truthy_opt (o : option string) : bool :=
  match o with Some s => truthy s | None => false end.

(** The double quote, for the HTML attributes the code writes. *)
Definition dq : string := String (ascii_of_nat 34) EmptyString.

End JsString.

(** ** [slugify], the callback given to markdown-it-anchor (run.js 378-382) *)

Module Slug.
Import JsString.

(** The character class [[a-z0-9]]. *)
Definition is_alnum (c : ascii) : bool :=
  let n := nat_of_ascii c in
  (((97 <=? n) && (n <=? 122)) || ((48 <=? n) && (n <=? 57)))%nat.

(** [.replace(/[^a-z0-9]+/g, "-")]: [in_run] tells that the previous
    character already belongs to the run being replaced. *)
Fixpoint hyphenate (in_run : bool) (s : string) : string :=
  match s with
  | EmptyString => EmptyString
  | String c s' =>
      if is_alnum c then String c (hyphenate false s')
      else if in_run then hyphenate true s'
      else String "-" (hyphenate true s')
  end.

Definition slugify (s : string) : string :=
  hyphenate false (toLowerCase (trim s)).

(** The slug as the specification words it: the text cut into maximal
    runs of alphanumeric and of other characters, every run of the
    second kind replaced by one hyphen. *)
Fixpoint runs (s : string) : list (bool * string) :=
  match s with
  | EmptyString => []
  | String c s' =>
      match runs s' with
      | (k, r) :: rest =>
          if Bool.eqb k (is_alnum c) then (k, String c r) :: rest
          else (is_alnum c, String c EmptyString) :: (k, r) :: rest
      | [] => [(is_alnum c, String c EmptyString)]
      end
  end.

Definition collapse (run : bool * string) : string :=
  if fst run then snd run else "-".

Definition render (l : list (bool * string)) : string :=
  String.concat EmptyString (map collapse l).

Definition slug_spec (s : string) : string := render (runs (toLowerCase s)).

(** What is left of the runs when the text continues a run that was
    already replaced. *)
Definition after_run (l : list (bool * string)) : list (bool * string) :=
  match l with
  | (false, _) :: rest => rest
  | _ => l
  end.

End Slug.

(** ** What the transport is asked to send ([webServer.send]) *)

Module Http.

(** - [Status404 id]: status 404 with the body "File not found!";
    - [Status200Body id body contentType]: status 200 with a text body;
    - [Status200Path id path contentType]: status 200 with a file to
      stream; [mimeType.lookup] gives [false], here [None], for an
      extension it does not know. *)
Inductive response : Type :=
| Status404 (id : string)
| Status200Body (id body contentType : string)
| Status200Path (id path : string) (contentType : option string).

Definition response_id (r : response) : string :=
  match r with
  | Status404 id => id
  | Status200Body id _ _ => id
  | Status200Path id _ _ => id
  end.

Definition is_200 (r : response) : bool :=
  match r with Status404 _ => false | _ => true end.

(** What a settled promise delivers. *)
Inductive settled (A : Type) : Type :=
| Fulfilled (v : A)
| Rejected (reason : string).
Arguments Fulfilled {A} v.
Arguments Rejected {A} reason.

End Http.

(** ** The fetch serializer: [sendFile] (run.js 496-549)

    [sendFile] is an [async] function: it runs until its first [await],
    and the rest runs when the awaited promise settles.  The session
    keeps the two closure variables [isLoading] and [queue], the calls
    that are suspended at an [await], and what was sent so far. *)

Module Fetch.
Import JsString Http.

Record request : Type := { req_path : string; req_id : string }.

Record session : Type := {
  isLoading : bool;
  queue : list request;      (** closures [() => sendFile(path, id)], oldest first *)
  reading : list request;    (** calls of [sendFile] waiting for their read *)
  sent : list response       (** oldest first *)
}.

Definition initial : session :=
  {| isLoading := false; queue := []; reading := []; sent := [] |}.

Definition set_loading (b : bool) (s : session) : session :=
  {| isLoading := b; queue := queue s; reading := reading s; sent := sent s |}.

Definition set_queue (q : list request) (s : session) : session :=
  {| isLoading := isLoading s; queue := q; reading := reading s; sent := sent s |}.

(** [queue.push(...)] *)
Definition push (r : request) (s : session) : session :=
  set_queue (queue s ++ [r]) s.

Definition suspend (r : request) (s : session) : session :=
  {| isLoading := isLoading s; queue := queue s;
     reading := reading s ++ [r]; sent := sent s |}.

Definition send (x : response) (s : session) : session :=
  {| isLoading := isLoading s; queue := queue s;
     reading := reading s; sent := sent s ++ [x] |}.

(** [queue.splice(-1, 1)[0]]: the queue without its last element, and
    that element ([undefined] on an empty queue). *)
Definition splice_last (q : list request) : list request * option request :=
  match rev q with
  | [] => (q, None)
  | r :: front => (rev front, Some r)
  end.

(** The branch that the protocol of the path selects. *)
Inductive scheme : Type := Remote | ContentUri | OtherScheme | LocalFile.

Definition classify (protocol : string) : scheme :=
  if includes protocol "ftp:" then Remote                (* /s?ftp:/.test *)
  else if String.eqb protocol "content:" then ContentUri
  else if negb (startsWith protocol "file:") then OtherScheme
  else LocalFile.

Section SendFile.

(** [Url.getProtocol], [Url.extname], [Url.join], [mimeType.lookup],
    [String.prototype.hashCode] and the constant [CACHE_STORAGE]. *)
Variable getProtocol : string -> string.
Variable extname : string -> string.
Variable Url_join : string -> string -> string.
Variable lookup : string -> option string.
Variable hashCode : string -> string.
Variable CACHE_STORAGE : string.

Definition scheme_of (r : request) : scheme :=
  classify (getProtocol (req_path r)).

(** [Url.join(CACHE_STORAGE, protocol.slice(0, -1) + path.hashCode())] *)
Definition cacheFile (path : string) : string :=
  let protocol := getProtocol path in
  Url_join CACHE_STORAGE
    (slice_to (String.length protocol - 1) protocol ++ hashCode path).

(** [Url.join(CACHE_STORAGE, path.hashCode())] *)
Definition tempFile (path : string) : string :=
  Url_join CACHE_STORAGE (hashCode path).

(** Lines 538-546: the 200 response, then [isLoading = false]. *)
Definition serve (r : request) (path : string) (s : session) : session :=
  set_loading false
    (send (Status200Path (req_id r) path (lookup (extname (req_path r)))) s).

(** The body of [sendFile]; [next] is what lines 547-548 do. *)
Definition sendFile_with (next : session -> session)
    (s : session) (r : request) : session :=
  if isLoading s then push r s
  else
    let s1 := set_loading true s in
    match scheme_of r with
    | LocalFile => next (serve r (req_path r) s1)
    | _ => suspend r s1
    end.

(** Lines 547-548: take the last queued closure and call it.  The call
    is [sendFile] again, which may get as far as these lines itself. *)
Fixpoint run_queued (fuel : nat) (s : session) : session :=
  match fuel with
  | O => s
  | S f =>
      match splice_last (queue s) with
      | (q, Some r) => sendFile_with (run_queued f) (set_queue q s) r
      | (_, None) => s
      end
  end.

(** Each nested call finds a shorter queue, so the length of the queue
    is fuel enough (see [run_queued_fuel]). *)
Definition next_action (s : session) : session :=
  run_queued (List.length (queue s)) s.

Definition sendFile (s : session) (r : request) : session :=
  sendFile_with next_action s r.

Fixpoint remove_nth {A : Type} (i : nat) (l : list A) : list A :=
  match i, l with
  | _, [] => []
  | O, _ :: t => t
  | S k, x :: t => x :: remove_nth k t
  end.

Definition resume (i : nat) (s : session) : session :=
  {| isLoading := isLoading s; queue := queue s;
     reading := remove_nth i (reading s); sent := sent s |}.

(** The rest of a suspended call, once its awaited promise settles.
    For [OtherScheme] the three awaits in a row (read, exists, write)
    are one suspension that is rejected when any of them is. *)
Definition settle (i : nat) (o : settled string) (s : session) : session :=
  match nth_error (reading s) i with
  | None => s
  | Some r =>
      let s1 := resume i s in
      match scheme_of r, o with
      | Remote, Fulfilled _ => next_action (serve r (cacheFile (req_path r)) s1)
      | Remote, Rejected _ =>
          (* catch: error(id); isLoading = false; return *)
          set_loading false (send (Status404 (req_id r)) s1)
      | ContentUri, Fulfilled p => next_action (serve r p s1)
      | OtherScheme, Fulfilled _ =>
          next_action (serve r (tempFile (req_path r)) s1)
      | _, Rejected _ => s1      (* no handler: the call ends here *)
      | LocalFile, _ => s1
      end
  end.

(** The path that a suspended call serves once its awaits are through:
    [p] is what [sdcard.formatUri] resolved with. *)
Definition served_path (r : request) (p : string) : string :=
  match scheme_of r with
  | Remote => cacheFile (req_path r)
  | ContentUri => p
  | OtherScheme => tempFile (req_path r)
  | LocalFile => req_path r
  end.

(** The 200 response of lines 538-544 for the request [r]. *)
Definition served (r : request) (p : string) : response :=
  Status200Path (req_id r) (served_path r p) (lookup (extname (req_path r))).

(** What happens to a session: a call [sendFile(path, id)] from a
    handler, or the read of the [i]-th suspended call settling. *)
Inductive event : Type :=
| Call (r : request)
| Settle (i : nat) (o : settled string).

Definition step (s : session) (e : event) : session :=
  match e with
  | Call r => sendFile s r
  | Settle i o => settle i o s
  end.

Definition run (s : session) (es : list event) : session :=
  fold_left step es s.

End SendFile.

(** How many reads are in flight. *)
Definition in_flight (s : session) : nat := List.length (reading s).

(** The invariant of the serializer: at most one read is in flight, and
    while one is, the flag is set. *)
Definition one_read (s : session) : Prop :=
  (in_flight s <= 1)%nat /\ (reading s <> [] -> isLoading s = true).

(** The call of [sendFile] for [r] stops at an [await]. *)
Definition suspends (getProtocol : string -> string) (r : request) : Prop :=
  scheme_of getProtocol r <> LocalFile.

(** Promises settling, with no call of [sendFile] from outside. *)
Definition settles (ios : list (nat * settled string)) : list event :=
  map (fun io => Settle (fst io) (snd io)) ios.

End Fetch.

(** ** Stand-ins for the collaborators, for the examples *)

Module Sample.

(** For [Url.getProtocol]: the text up to the first colon, colon
    included. *)
Fixpoint protocol_of (s : string) : string :=
  match s with
  | EmptyString => EmptyString
  | String c s' =>
      if Ascii.eqb c ":" then String c EmptyString
      else match protocol_of s' with
           | EmptyString => EmptyString
           | p => String c p
           end
  end.

(** For [Url.extname]: the text after the last dot of the last segment,
    dot included. *)
Fixpoint extname_of (s : string) : string :=
  match s with
  | EmptyString => EmptyString
  | String c s' =>
      let e := extname_of s' in
      if JsString.includes s' "." || JsString.includes s' "/" then e
      else if Ascii.eqb c "." then s else e
  end.

(** For [Url.join]: the two parts with a slash between them. *)
Definition join_plain (a b : string) : string := (a ++ "/" ++ b)%string.

(** For [mimeType.lookup], on a few extensions. *)
Definition lookup_of (ext : string) : option string :=
  if String.eqb ext ".html" then Some "text/html"
  else if String.eqb ext ".txt" then Some "text/plain"
  else if String.eqb ext ".md" then Some "text/markdown"
  else if String.eqb ext ".png" then Some "image/png"
  else None.

(** For [String.prototype.hashCode]. *)
Definition hash_of (s : string) : string := ("h" ++ s)%string.

(** The serializer on these stand-ins, and three requests. *)
Definition fetch_run : Fetch.session -> list Fetch.event -> Fetch.session :=
  Fetch.run protocol_of extname_of join_plain lookup_of hash_of "/cache".

Definition reqA : Fetch.request :=
  {| Fetch.req_path := "sftp://host/a.txt"; Fetch.req_id := "1" |}.
Definition reqB : Fetch.request :=
  {| Fetch.req_path := "sftp://host/b.txt"; Fetch.req_id := "2" |}.
Definition reqC : Fetch.request :=
  {| Fetch.req_path := "sftp://host/c.txt"; Fetch.req_id := "3" |}.

(** A file of a folder opened through the storage access framework. *)
Definition reqSaf : Fetch.request :=
  {| Fetch.req_path :=
       "content://com.android.externalstorage.documents/tree/primary%3Aproj::primary:proj/app.js";
     Fetch.req_id := "4" |}.

End Sample.

(** ** The variables [run()] closes over, and its collaborators *)

Module Env.
Import JsString Http.

(** A computation that may throw. *)
Inductive result (A : Type) : Type :=
| Ok (a : A)
| Throw (e : string).
Arguments Ok {A} a.
Arguments Throw {A} e.

(** The fields of an [EditorFile] that the handlers read. *)
Record EditorFile : Type := {
  mode : string;
  SAFMode : string;
  uri : option string;
  file_filename : string;
  loaded : bool;
  isUnsaved : bool;
  getValue : string           (** [session.getValue()] *)
}.

(** [fs.stat()] *)
Record stats : Type := { st_exists : bool; st_isFile : bool }.

(** The [let]s and [const]s at the top of [run()] once [start()] ran. *)
Record vars : Type := {
  uuid : string;
  isConsole : bool;
  target : string;
  activeFile : option EditorFile;     (** [null] when only the console runs *)
  filename : string;
  pathName : option string;
  EXECUTING_SCRIPT : string
}.

Definition CONSOLE_SCRIPT (v : vars) : string := (uuid v ++ "_console.js")%string.
Definition MARKDOWN_STYLE (v : vars) : string := (uuid v ++ "_md.css")%string.

(** Everything outside [run.js]: [utils/Url], [mime-types], the file
    system, the editor manager, the opened folders, the renderers, the
    settings and the global constants. *)
Record world : Type := {
  Url_join : string -> string -> string;
  Url_join_undefined : string -> string;   (** [Url.join(undefined, name)] *)
  Url_extname : string -> string;
  lookup : string -> option string;        (** [mimeType.lookup] *)
  decodeURIComponent : string -> option string;   (** [None]: URIError *)
  fs_stat : string -> result stats;
  fs_exists : string -> result bool;
  fs_readFile : string -> result string;
  getFile : string -> option EditorFile;   (** [editorManager.getFile(url, "uri")] *)
  addedFolder0 : option string;            (** [addedFolder[0].url] *)
  markdown_render : string -> string;      (** the [markdownIt] chain *)
  console_page : string;                   (** [mustache.render($_console, ...)] *)
  markdown_page : string -> string;        (** [mustache.render($_markdown, ...)] *)
  MIMETYPE_HTML : string;                  (** [mimeType.lookup("html")] *)
  ASSETS_DIRECTORY : string;
  DATA_STORAGE : string;
  console_legacy : bool;       (** [appSettings.value.console === CONSOLE_LEGACY] *)
  markdownStyle : option string;
  showConsoleToggler : bool
}.

End Env.

(** ** The path resolver: [getRelativePath] (run.js 603-786) *)

Module RelPath.
Import JsString Env.

Definition termuxRootEncoded : string :=
  "content://com.termux.documents/tree/%2Fdata%2Fdata%2Fcom.termux%2Ffiles%2Fhome".

Definition nth_part (i : nat) (parts : list string) : option string :=
  nth_error parts i.

Definition last_part (parts : list string) : string :=
  List.last parts EmptyString.

Definition is_ftp (s : string) : bool :=
  startsWith s "ftp:" || startsWith s "sftp:".

(** [s.split("?")[0]] *)
Definition before_query (s : string) : string :=
  match split s "?" with
  | h :: _ => h
  | [] => s
  end.

Fixpoint take_until_colon (s : string) : string :=
  match s with
  | EmptyString => EmptyString
  | String c s' =>
      if Ascii.eqb c ":" then EmptyString else String c (take_until_colon s')
  end.

(** [uri.match(/tree\/([^:]+)/)]: the first capture of the leftmost match. *)
Fixpoint match_tree (s : string) : option string :=
  match s with
  | EmptyString => None
  | String _ s' =>
      if String.prefix "tree/" s
      then let captured := take_until_colon (slice_from 5 s) in
           if truthy captured then Some captured else match_tree s'
      else match_tree s'
  end.

(** The loop of lines 763-770: how many leading segments agree. *)
Fixpoint commonIndex (rootParts tempParts : list string) : nat :=
  match rootParts, tempParts with
  | r :: rs, t :: ts =>
      if String.eqb r t then S (commonIndex rs ts) else O
  | _, _ => O
  end.

Section Resolver.
Variable w : world.
Variable v : vars.

Definition makeUriAbsoluteIfNeeded (u : string) : result string :=
  if startsWith u termuxRootEncoded then
    if includes u "::" then Ok u
    else
      let tail := match nth_part 1 (split u "tree/") with
                  | Some t => t          (* an empty tail stays empty *)
                  | None => EmptyString
                  end in
      match decodeURIComponent w tail with
      | Some decodedPath => Ok (termuxRootEncoded ++ "::" ++ decodedPath ++ "/")%string
      | None => Throw "URIError"
      end
  else Ok u.

(** The test of lines 627-632: the uri of the active file when it is a
    Termux document tree. *)
Definition termux_uri : option string :=
  match activeFile v with
  | Some af =>
      match uri af with
      | Some u =>
          if truthy u && includes u "com.termux.documents" && includes u "tree/"
          then Some u else None
      | None => None
      end
  | None => None
  end.

(** Lines 624-650: the root before it is made absolute. *)
Definition initialRoot (pathName : string) : string :=
  match termux_uri with
  | Some u =>
      match match_tree u with
      | Some captured =>
          match decodeURIComponent w captured with
          | Some decodedRoot => decodedRoot
          | None => pathName                  (* caught *)
          end
      | None => pathName
      end
  | None =>
      match addedFolder0 w with
      | Some url =>
          if truthy pathName && includes pathName url then url else pathName
      | None => pathName
      end
  end.

(** Lines 675-702; [None] when the branch returns nothing. *)
Definition termuxRelative (rootFolder temp : string) : option string :=
  if includes temp "com.termux.documents" && includes temp "::" then
    match nth_part 1 (split temp "::") with
    | Some realPath =>
        let normalizedRoot := strip_trailing_slashes rootFolder in
        if startsWith realPath normalizedRoot then
          let relativePath :=
            strip_leading_slashes
              (slice_from (String.length normalizedRoot) realPath) in
          if truthy relativePath then Some relativePath else None
        else None
    | None => None                           (* TypeError, caught *)
    end
  else None.

(** Lines 705-754. *)
Definition contentRelative (rootFolder temp : string) : option string :=
  if includes temp "content://" && includes temp "::" then
    match nth_part 1 (split temp "::") with
    | Some afterDoubleColon =>
        if truthy afterDoubleColon then
          let rootFolderPath1 :=
            if includes rootFolder "::"
            then match nth_part 1 (split rootFolder "::") with
                 | Some p => p
                 | None => rootFolder
                 end
            else rootFolder in
          let rootFolderPath :=
            if negb (includes rootFolderPath1 "::") then
              let lastPart := last_part (split rootFolder "/") in
              if includes lastPart "%3A" then
                match decodeURIComponent w lastPart with
                | Some decoded => decoded
                | None => lastPart            (* caught *)
                end
              else lastPart
            else rootFolderPath1 in
          let normalizedRoot := strip_trailing_slashes rootFolderPath in
          if startsWith afterDoubleColon normalizedRoot then
            let relativePath :=
              strip_leading_slashes
                (slice_from (String.length normalizedRoot) afterDoubleColon) in
            if truthy relativePath then Some relativePath else None
          else None
        else None
    | None => None
    end
  else None.

(** Lines 759-786. *)
Definition plainRelative (rootFolder temp : string) : string :=
  let rootParts := split rootFolder "/" in
  let tempParts := split temp "/" in
  let common := commonIndex rootParts tempParts in
  if (0 <? common)%nat then join (skipn common tempParts) "/"
  else if truthy (filename v) then filename v
  else temp.

Definition getRelativePath : result string :=
  match pathName v with
  | None => Throw "TypeError"   (* [uri.startsWith] / [filePath.startsWith] on undefined *)
  | Some pathName =>
      match makeUriAbsoluteIfNeeded (initialRoot pathName) with
      | Throw e => Throw e
      | Ok rootFolder0 =>
          let rootFolder :=
            if is_ftp rootFolder0 && includes rootFolder0 "?"
            then before_query rootFolder0 else rootFolder0 in
          let filePath :=
            if (startsWith pathName "ftp:" || startsWith rootFolder "sftp:")
               && includes pathName "?"
            then before_query pathName else pathName in
          let temp := Url_join w filePath (filename v) in
          match termuxRelative rootFolder temp with
          | Some relativePath => Ok relativePath
          | None =>
              match contentRelative rootFolder temp with
              | Some relativePath => Ok relativePath
              | None => Ok (plainRelative rootFolder temp)
              end
          end
      end
  end.

End Resolver.

(** [rest] begins with a segment that is not empty. *)
Definition leading_segment (rest : string) : bool :=
  match rest with
  | String c _ => negb (is_slash c)
  | EmptyString => false
  end.

(** [P] lies strictly below the root [R], trailing slashes of [R]
    apart, and [rest] is what follows the root and its slash. *)
Definition strictly_below (R P rest : string) : Prop :=
  P = (strip_trailing_slashes R ++ "/" ++ rest)%string /\
  leading_segment rest = true.

(** Plain paths: the root is not the encoded Termux home, neither the
    root nor the directory carries a query, and the full path of the
    document has no [::]. *)
Definition plain_paths (R P temp : string) : bool :=
  negb (startsWith R termuxRootEncoded)
  && negb (includes R "?") && negb (includes P "?")
  && negb (includes temp "::").

End RelPath.

(** ** The request handler: [handleRequest], [sendByExt] and the
       [send...] helpers (run.js 181-601) *)

Module Handler.
Import JsString Http Env.

(** What a handler does to the outside: a response through the
    transport, or a call of the fetch serializer. *)
Inductive effect : Type :=
| Respond (r : response)
| CallSendFile (path id : string).

(** The state a handler changes: the closure variable [isFallback] and
    the effects so far, oldest first. *)
Record hstate : Type := { isFallback : bool; effects : list effect }.

Definition start_state : hstate := {| isFallback := false; effects := [] |}.

(** State and exceptions; a throw keeps what was done before it. *)
Definition M (A : Type) : Type := hstate -> hstate * result A.

Definition ret {A : Type} (a : A) : M A := fun h => (h, Ok a).

Definition bind {A B : Type} (c : M A) (k : A -> M B) : M B :=
  fun h =>
    match c h with
    | (h', Ok a) => k a h'
    | (h', Throw e) => (h', Throw e)
    end.

Definition throw {A : Type} (e : string) : M A := fun h => (h, Throw e).

(** An awaited file-system call. *)
Definition await {A : Type} (r : result A) : M A := fun h => (h, r).

Definition emit (x : effect) : M unit :=
  fun h => ({| isFallback := isFallback h; effects := effects h ++ [x] |}, Ok tt).

Definition set_isFallback (b : bool) : M unit :=
  fun h => ({| isFallback := b; effects := effects h |}, Ok tt).

Declare Scope handler_scope.
Delimit Scope handler_scope with handler.
Notation "x <- c ;; k" := (bind c (fun x => k))
  (at level 61, c at next level, right associativity) : handler_scope.
Notation "c ;; k" := (bind c (fun _ => k))
  (at level 61, right associativity) : handler_scope.
Local Open Scope handler_scope.

Definition responses (h : hstate) : list response :=
  flat_map (fun x => match x with Respond r => [r] | _ => [] end) (effects h).

Definition nl : string := String (ascii_of_nat 10) EmptyString.

(** [findOverlap(a, b)] (lines 302-320): the longest end of [a] that is a
    beginning of [b]; the loop keeps the last length that matches. *)
Definition findOverlap (a b : string) : string :=
  fold_left
    (fun maxOverlap i =>
       let endOfA := slice_last i a in
       let startOfB := slice_to i b in
       if String.eqb endOfA startOfB then endOfA else maxOverlap)
    (seq 1 (Nat.min (String.length a) (String.length b)))
    EmptyString.

(** [removePrefix(str, prefix)] (lines 295-300) *)
Definition removePrefix (str prefix : string) : string :=
  if startsWith str prefix then slice_from (String.length prefix) str else str.

Section Handlers.
Variable w : world.
Variable v : vars.

(** The block of lines 448-477.  Line breaks are kept, indentation is
    not. *)
Definition injected : string :=
  ("<!-- Injected code, this is not present in original code -->"
   ++ "<meta name=" ++ dq ++ "viewport" ++ dq ++ " content=" ++ dq
   ++ "width=device-width, initial-scale=1.0" ++ dq ++ " />" ++ nl
   ++ "<script class=" ++ dq ++ uuid v ++ dq ++ " src=" ++ dq ++ "/"
   ++ CONSOLE_SCRIPT v ++ dq ++ " crossorigin=" ++ dq ++ "anonymous" ++ dq
   ++ "></script>" ++ nl
   ++ "<script class=" ++ dq ++ uuid v ++ dq ++ ">" ++ nl
   ++ "if(window.eruda){" ++ nl
   ++ "eruda.init({" ++ nl ++ "theme: 'dark'" ++ nl ++ "});" ++ nl ++ nl
   ++ (if String.eqb (target v) "inapp"
       then "eruda._shadowRoot.querySelector('.eruda-entry-btn').style.display = 'none';"
       else EmptyString) ++ nl ++ nl
   ++ "sessionStorage.setItem('__console_available', true);" ++ nl
   ++ "document.addEventListener('showconsole', function () {eruda.show()});" ++ nl
   ++ "document.addEventListener('hideconsole', function () {eruda.hide()});" ++ nl
   ++ "}else if(document.querySelector('c-toggler')){" ++ nl
   ++ (if String.eqb (target v) "inapp"
          || (negb (String.eqb (target v) "inapp") && negb (showConsoleToggler w))
       then "document.querySelector('c-toggler').style.display = 'none';"
       else EmptyString) ++ nl
   ++ "}" ++ nl
   ++ "setTimeout(function(){" ++ nl
   ++ "var scripts = document.querySelectorAll('." ++ uuid v ++ "');" ++ nl
   ++ "scripts.forEach(function(el){document.head.removeChild(el)});" ++ nl
   ++ "}, 0);" ++ nl
   ++ "</script><!-- Injected code, this is not present in original code -->")%string.

(** Lines 478-486 of [sendHTML]: the text that is sent. *)
Definition instrument (text0 : string) : string :=
  let text :=
    replace_all "></script>"
      (" crossorigin=" ++ dq ++ "anonymous" ++ dq ++ "></script>") text0 in
  match split text "<head>" with
  | [part0; part1] => (part0 ++ "<head>" ++ injected ++ part1)%string
  | _ =>
      if includes (toLowerCase text) "<html>"           (* /<html>/i.test *)
      then replace_first "<html>"
             ("<html><head>" ++ injected ++ "</head>") text
      else ("<head>" ++ injected ++ "</head>" ++ text)%string
  end.

(** [error(id)] *)
Definition error (id : string) : M unit := emit (Respond (Status404 id)).

(** [sendText(text, id, mimeType)]; no caller passes [processText]. *)
Definition sendText (text id : string) (mimeType : option string) : M unit :=
  let contentType :=
    match mimeType with
    | Some m => if truthy m then m else "text/html"
    | None => "text/html"
    end in
  emit (Respond (Status200Body id text contentType)).

(** [sendHTML(text, id)] *)
Definition sendHTML (text id : string) : M unit :=
  sendText (instrument text) id None.

(** A call [sendFile(path, id)]: handed to the fetch serializer. *)
Definition call_sendFile (path id : string) : M unit :=
  emit (CallSendFile path id).

(** [sendIco(assets, reqId)] *)
Definition sendIco (assets reqId : string) : M unit :=
  call_sendFile (Url_join w assets "res/logo/favicon.ico") reqId.

(** [Url.join(pathName, filename)] of line 563. *)
Definition fallbackPath : string :=
  match pathName v with
  | Some p => Url_join w p (filename v)
  | None => Url_join_undefined w (filename v)
  end.

(** [sendFileContent(url, id, mime)] (lines 559-584); no caller passes
    [processText]. *)
Definition sendFileContent (url id mime : string) : M unit :=
  found <- await (fs_exists w url) ;;
  if negb found then
    fallback <- await (fs_exists w fallbackPath) ;;
    if fallback then set_isFallback true      (* fs = xfs; isFallback = true *)
    else error id
    (* return *)
  else
    text <- await (fs_readFile w url) ;;
    if String.eqb mime (MIMETYPE_HTML w) then sendHTML text id
    else sendText text id (Some mime).

(** Lines 264-358: the target that the request path names under the
    root folder. *)
Definition rootFolderOf (pathName : string) : string :=
  let rootFolder0 :=
    match addedFolder0 w with
    | Some url => if includes pathName url then url else pathName
    | None => pathName
    end in
  let rootFolder1 :=
    if (startsWith rootFolder0 "ftp:" || startsWith rootFolder0 "sftp:")
       && includes rootFolder0 "?"
    then RelPath.before_query rootFolder0 else rootFolder0 in
  strip_trailing_slashes rootFolder1.

Definition fullPathOf (pathName reqPath : string) : string :=
  let rootFolder := rootFolderOf pathName in
  let rootParts := split rootFolder "/" in
  let pathParts0 := split reqPath "/" in
  let pathParts :=
    match pathParts0 with
    | p0 :: rest =>
        if String.eqb p0 (RelPath.last_part rootParts) then rest else pathParts0
    | [] => pathParts0
    end in
  let joined := join pathParts "/" in
  let overlap := findOverlap rootFolder joined in
  if negb (String.eqb overlap EmptyString)
  then Url_join w rootFolder (removePrefix joined overlap)
  else Url_join w rootFolder joined.

(** The [switch (ext)] of lines 363-417. *)
Definition dispatch (ext reqPath reqId : string)
    (url : option string) (file : option EditorFile) : M unit :=
  let unsaved :=
    match file with
    | Some f => if loaded f && isUnsaved f then Some f else None
    | None => None
    end in
  if String.eqb ext ".htm" || String.eqb ext ".html" then
    match unsaved with
    | Some f => sendHTML (getValue f) reqId
    | None =>
        match url with
        | Some u => sendFileContent u reqId (MIMETYPE_HTML w)
        | None => throw "fsOperation(undefined)"
        end
    end
  else if String.eqb ext ".md" then
    match file with
    | Some f =>
        sendText (markdown_page w (markdown_render w (getValue f)))
          reqId (Some (MIMETYPE_HTML w))
    | None => ret tt                          (* no [else] *)
    end
  else
    match unsaved with
    | Some f =>
        if endsWith (file_filename f) ".html" then sendHTML (getValue f) reqId
        else sendText (getValue f) reqId (lookup w (file_filename f))
    | None =>
        if truthy_opt url then
          if String.eqb reqPath "favicon.ico"
          then sendIco (ASSETS_DIRECTORY w) reqId
          else match url with
               | Some u => call_sendFile u reqId
               | None => ret tt
               end
        else error reqId
    end.

(** [sendByExt()] (lines 227-418) for the request [reqPath], [reqId]
    whose extension is [ext]. *)
Definition sendByExt (ext reqPath reqId : string) : M unit :=
  if isConsole v && String.eqb reqPath "console.html" then
    sendText (console_page w) reqId (Some (MIMETYPE_HTML w))
  else if isConsole v && String.eqb reqPath "favicon.ico" then
    sendIco (ASSETS_DIRECTORY w) reqId
  else
    match activeFile v with
    | None => throw "TypeError"               (* [activeFile.mode] on null *)
    | Some af =>
        if String.eqb (mode af) "single" then
          if String.eqb (filename v) reqPath
          then sendText (getValue af) reqId (lookup w (filename v))
          else error reqId
        else
          if truthy_opt (pathName v) then
            match pathName v, uri af with
            | Some pathName, Some url0 =>
                let query := RelPath.nth_part 1 (split url0 "?") in
                let reqPath1 := strip_leading_slashes reqPath in
                let fullPath0 := fullPathOf pathName reqPath1 in
                st <- await (fs_stat w fullPath0) ;;
                if negb (st_exists st) then error reqId
                else
                  let fullPath :=
                    if negb (st_isFile st) then
                      if endsWith fullPath0 "/"
                      then (fullPath0 ++ "index.html")%string
                      else (fullPath0 ++ "/index.html")%string
                    else fullPath0 in
                  let url :=
                    match query with
                    | Some q =>
                        if truthy q then (fullPath ++ "?" ++ q)%string
                        else fullPath
                    | None => fullPath
                    end in
                  dispatch ext reqPath1 reqId (Some url) (getFile w url)
            | _, _ => throw "TypeError"       (* [url.split] on undefined *)
            end
          else
            let file :=
              if negb (truthy_opt (uri af)) then Some af
              else if String.eqb (SAFMode af) "single" then Some af
              else None in
            dispatch ext reqPath reqId (uri af) file
    end.

(** [handleRequest(req)] (lines 181-225) for [req.path = "/" + rest]. *)
Definition handleRequest (rest reqId : string) : M unit :=
  reqPath <-
    (if negb (truthy rest)
        || (endsWith rest "/" && (String.length rest =? 1)%nat)
     then await (RelPath.getRelativePath w v)
     else ret rest) ;;
  let ext := Url_extname w reqPath in
  if String.eqb reqPath (CONSOLE_SCRIPT v) then
    let url :=
      if isConsole v || console_legacy w
      then (ASSETS_DIRECTORY w ++ "/js/build/console.build.js")%string
      else (DATA_STORAGE w ++ "/eruda.js")%string in
    sendFileContent url reqId "application/javascript"
  else if String.eqb reqPath (EXECUTING_SCRIPT v) then
    let text := match activeFile v with
                | Some af => getValue af
                | None => EmptyString
                end in
    sendText text reqId (Some "application/javascript")
  else if String.eqb reqPath (MARKDOWN_STYLE v) then
    match markdownStyle w with
    | Some url =>
        if truthy url then sendFileContent url reqId "text/css"
        else sendText "img {max-width: 100%;}" reqId (Some "text/css")
    | None => sendText "img {max-width: 100%;}" reqId (Some "text/css")
    end
  else sendByExt ext reqPath reqId.

End Handlers.

End Handler.

(** ** Starting the server: [start], [startServer], [onError]
       (run.js 145-173) *)

Module Server.
Import JsString Http.
Local Open Scope Z_scope.

(** What the transport answers to [CreateServer(port, openBrowser, onError)]:
    the success callback, or the error callback with its message. *)
Inductive bind_result : Type :=
| Listening
| Failed (err : string).

(** What the outside answers to one call of [start()]: the callbacks of
    [system.isPowerSaveMode] (consulted for the browser target only) and
    of [CreateServer]. *)
Record attempt : Type := { powerSave : settled bool; bound : bind_result }.

(** - [Stop]: [webServer?.stop()] on an existing handle;
    - [Create port]: [CreateServer(port, ...)] and [setOnRequestHandler];
    - [OpenBrowser port]: [openBrowser()], on [http://localhost:port/...];
    - [Alert]: the power-save warning. *)
Inductive action : Type :=
| Stop
| Create (port : Z)
| OpenBrowser (port : Z)
| Alert.

Record server : Type := {
  port : Z;
  webServer : option Z;       (** the handle, with the port it was created for *)
  actions : list action       (** oldest first *)
}.

Definition log (a : action) (s : server) : server :=
  {| port := port s; webServer := webServer s; actions := actions s ++ [a] |}.

(** [++port] *)
Definition next_port (s : server) : server :=
  {| port := port s + 1; webServer := webServer s; actions := actions s |}.

Definition openBrowser (s : server) : server := log (OpenBrowser (port s)) s.

(** Lines 161-163. *)
Definition createServer (s : server) : server :=
  let s1 := match webServer s with Some _ => log Stop s | None => s end in
  {| port := port s1; webServer := Some (port s1);
     actions := actions s1 ++ [Create (port s1)] |}.

(** [onError(err)] (lines 165-172); [retry] is [start]. *)
Definition onError (retry : server -> server) (err : string) (s : server) : server :=
  if String.eqb err "Server already running" then openBrowser s
  else retry (next_port s).

Section Start.
Variable target : string.

(** [start()] with [startServer()] inlined; one answer of the outside
    is used per call, and with no answer left the call is waiting for
    its callback. *)
Fixpoint start (answers : list attempt) (s : server) : server :=
  let browser := String.eqb target "browser" in
  match answers with
  | [] => if browser then s else createServer s
  | a :: rest =>
      let blocked :=
        browser && match powerSave a with
                   | Fulfilled res => res
                   | Rejected _ => false          (* error callback: startServer *)
                   end in
      if blocked then log Alert s
      else
        let s1 := createServer s in
        match bound a with
        | Listening => openBrowser s1
        | Failed err => onError (start rest) err s1
        end
  end.

End Start.

Definition creations (s : server) : list Z :=
  flat_map (fun a => match a with Create p => [p] | _ => [] end) (actions s).

Definition fresh (p : Z) : server :=
  {| port := p; webServer := None; actions := [] |}.

(** The ports [p], [p + 1], ... tried by [n] calls in a row. *)
Fixpoint ports_from (p : Z) (n : nat) : list Z :=
  match n with
  | O => []
  | S k => p :: ports_from (p + 1) k
  end.

(** The call of [start()] gets as far as [startServer()]. *)
Definition proceeds (target : string) (a : attempt) : bool :=
  negb (String.eqb target "browser"
        && match powerSave a with
           | Fulfilled res => res
           | Rejected _ => false
           end).

(** The bind fails for a reason other than the port being owned by
    this component already. *)
Definition fails_otherwise (a : attempt) : bool :=
  match bound a with
  | Failed err => negb (String.eqb err "Server already running")
  | Listening => false
  end.

End Server.

(** ** Sessions and worlds for the examples *)

Module Scenario.
Import JsString Http Env.

(** A saved file [index.html] of the editor, opened from a folder. *)
Definition fileAt (dir : string) : EditorFile :=
  {| mode := "normal"; SAFMode := "tree";
     uri := Some (dir ++ "/index.html")%string;
     file_filename := "index.html"; loaded := true; isUnsaved := false;
     getValue := "<html></html>" |}.

(** The session of a run whose active file is [dir/index.html]. *)
Definition sessionIn (dir : string) : vars :=
  {| uuid := "k3x"; isConsole := false; target := "inapp";
     activeFile := Some (fileAt dir); filename := "index.html";
     pathName := Some dir; EXECUTING_SCRIPT := "k3x_script.js" |}.

Definition folderSession : vars := sessionIn "/proj".

(** A world over [stat], [exists], the open files and the first opened
    folder; the rest is fixed. *)
Definition worldOf (stat : string -> result stats)
    (exist : string -> result bool)
    (opened : string -> option EditorFile) (root : option string) : world :=
  {| Url_join := Sample.join_plain;
     Url_join_undefined := fun name => name;
     Url_extname := Sample.extname_of;
     lookup := Sample.lookup_of;
     decodeURIComponent := fun s => Some s;
     fs_stat := stat;
     fs_exists := exist;
     fs_readFile := fun _ => Ok "disk content";
     getFile := opened;
     addedFolder0 := root;
     markdown_render := fun s => s;
     console_page := "console";
     markdown_page := fun html => html;
     MIMETYPE_HTML := "text/html";
     ASSETS_DIRECTORY := "/assets";
     DATA_STORAGE := "/data";
     console_legacy := false;
     markdownStyle := None;
     showConsoleToggler := false |}.

(** Every file exists on disk and none but the active one is open. *)
Definition onDisk : world :=
  worldOf (fun _ => Ok {| st_exists := true; st_isFile := true |})
          (fun _ => Ok true) (fun _ => None) (Some "/proj").

(** The file system cannot be reached. *)
Definition unreachable : world :=
  worldOf (fun _ => Throw "connection lost")
          (fun _ => Throw "connection lost") (fun _ => None) (Some "/proj").

(** Nothing exists on disk. *)
Definition emptyDisk : world :=
  worldOf (fun _ => Ok {| st_exists := false; st_isFile := false |})
          (fun _ => Ok false) (fun _ => None) (Some "/proj").

(** Sessions whose file lies below the root [/proj]. *)
Definition nestedSession : vars := sessionIn "/proj/src/proj".

Definition srcSession : vars := sessionIn "/proj/src".

(** Answers of the transport to [CreateServer]. *)
Definition listening : Server.attempt :=
  {| Server.powerSave := Fulfilled false; Server.bound := Server.Listening |}.
Definition portTaken : Server.attempt :=
  {| Server.powerSave := Fulfilled false;
     Server.bound := Server.Failed "EADDRINUSE" |}.
Definition alreadyRunning : Server.attempt :=
  {| Server.powerSave := Fulfilled false;
     Server.bound := Server.Failed "Server already running" |}.

End Scenario.

(** ** Further notions used by the properties of Part II *)

Module Shape.
Import JsString.

(** [x] is an ending of [s], and [x] is a beginning of [s]. *)
Definition ending_of (x s : string) : Prop :=
  exists front : string, s = (front ++ x)%string.

Definition beginning_of (x s : string) : Prop :=
  exists back : string, s = (x ++ back)%string.


End Shape.

(** ** More stand-ins and sessions for the examples *)

Module Sample2.
Import JsString Http Env.

Definition hex_digit (c : ascii) : option nat :=
  let n := nat_of_ascii c in
  if ((48 <=? n) && (n <=? 57))%nat then Some (n - 48)%nat
  else if ((65 <=? n) && (n <=? 70))%nat then Some (n - 55)%nat
  else if ((97 <=? n) && (n <=? 102))%nat then Some (n - 87)%nat
  else None.

(** For [decodeURIComponent] on ASCII escapes: [%XX] is the character
    of code [XX]; a [%] without two hexadecimal digits is an error. *)
Fixpoint percent_decode (s : string) : option string :=
  match s with
  | EmptyString => Some EmptyString
  | String c s1 =>
      if Ascii.eqb c "%" then
        match s1 with
        | String h (String l rest) =>
            match hex_digit h, hex_digit l, percent_decode rest with
            | Some a, Some b, Some r => Some (String (ascii_of_nat (16 * a + b)) r)
            | _, _, _ => None
            end
        | _ => None
        end
      else
        match percent_decode s1 with
        | Some r => Some (String c r)
        | None => None
        end
  end.

(** A world over the decoder and the first opened folder; no file
    system call answers. *)
Definition decodingWorld (decode : string -> option string)
    (root : option string) : world :=
  {| Url_join := Sample.join_plain;
     Url_join_undefined := fun name => name;
     Url_extname := Sample.extname_of;
     lookup := Sample.lookup_of;
     decodeURIComponent := decode;
     fs_stat := fun _ => Throw "unused";
     fs_exists := fun _ => Throw "unused";
     fs_readFile := fun _ => Throw "unused";
     getFile := fun _ => None;
     addedFolder0 := root;
     markdown_render := fun s => s;
     console_page := "console";
     markdown_page := fun html => html;
     MIMETYPE_HTML := "text/html";
     ASSETS_DIRECTORY := "/assets";
     DATA_STORAGE := "/data";
     console_legacy := false;
     markdownStyle := None;
     showConsoleToggler := false |}.

(** The folder [~/site] of Termux, opened as a document tree. *)
Definition termuxTree : string :=
  "content://com.termux.documents/tree/%2Fdata%2Fdata%2Fcom.termux%2Ffiles%2Fhome%2Fsite".

Definition termuxDir : string :=
  (termuxTree ++ "::/data/data/com.termux/files/home/site/pages")%string.

Definition termuxSession : vars := Scenario.sessionIn termuxDir.



End Sample2.

(** ** Reading the log of the server actions *)

Module ServerLog.
Import Server.

(** A handle is held when [CreateServer] has returned it and [stop()]
    has not been called on it since, whether or not its bind succeeded:
    the log does not tell a listening server from one whose bind failed.
    [held_after held acts] tells whether a handle is held after the
    actions [acts], given whether one was held before them. *)
Fixpoint held_after (held : bool) (acts : list action) : bool :=
  match acts with
  | [] => held
  | Create _ :: rest => held_after true rest
  | Stop :: rest => held_after false rest
  | _ :: rest => held_after held rest
  end.

(** No [Create] happens while a handle is held, and no [Stop] while
    none is. *)
Fixpoint one_handle_at_a_time (held : bool) (acts : list action) : bool :=
  match acts with
  | [] => true
  | Create _ :: rest => negb held && one_handle_at_a_time true rest
  | Stop :: rest => held && one_handle_at_a_time false rest
  | _ :: rest => one_handle_at_a_time held rest
  end.

(** The ports on which the browser was opened. *)
Definition opened (s : server) : list Z :=
  flat_map (fun a => match a with OpenBrowser p => [p] | _ => [] end) (actions s).

Definition has_handle (s : server) : bool :=
  match webServer s with Some _ => true | None => false end.

(** A server state whose log is in order and agrees with [webServer]. *)
Definition in_order (s : server) : Prop :=
  one_handle_at_a_time false (actions s) = true /\
  held_after false (actions s) = has_handle s.

End ServerLog.

(** ** Counting requests and responses in the fetch serializer *)

Module FetchCount.
Import Http Fetch.

(** The requests that the events hand to [sendFile] from outside. *)
Definition called (es : list event) : list request :=
  flat_map (fun e => match e with Call r => [r] | Settle _ _ => [] end) es.

(** How many times the id [x] occurs in a list of ids. *)
Definition times (x : string) (ids : list string) : nat :=
  count_occ string_dec ids x.

(** How many responses were sent for the id [x], plus how many requests
    with that id are queued or reading. *)
Definition tally (x : string) (s : session) : nat :=
  times x (map response_id (sent s))
  + times x (map req_id (queue s))
  + times x (map req_id (reading s)).

End FetchCount.

(** ** The console harness: [startConsole] (run.js 131-143) *)

Module Console.
Import JsString Http Env.

(** The session variables after [startConsole()], and the server after
    its call of [start()] on [constants.CONSOLE_PORT].  Outside console
    mode the script endpoint takes the name of the active file;
    [activeFile.filename] on [null] is a TypeError. *)
Definition startConsole (w : world) (CONSOLE_PORT : Z)
    (answers : list Server.attempt) (v : vars) (s : Server.server)
    : result (vars * Server.server) :=
  let script :=
    if isConsole v then Ok (EXECUTING_SCRIPT v)
    else match activeFile v with
         | Some af => Ok (file_filename af)
         | None => Throw "TypeError"
         end in
  match script with
  | Throw e => Throw e
  | Ok name =>
      Ok ({| uuid := uuid v; isConsole := true; target := "inapp";
             activeFile := activeFile v; filename := "console.html";
             pathName := Some (ASSETS_DIRECTORY w ++ "www/")%string;
             EXECUTING_SCRIPT := name |},
          Server.start "inapp" answers
            {| Server.port := CONSOLE_PORT;
               Server.webServer := Server.webServer s;
               Server.actions := Server.actions s |})
  end.

(** The last character of a text. *)
Fixpoint last_char (s : string) : option ascii :=
  match s with
  | EmptyString => None
  | String c EmptyString => Some c
  | String _ rest => last_char rest
  end.

(** The request path is neither empty nor the single slash, so that
    [handleRequest] takes it as it is. *)
Definition names_a_path (rest : string) : bool :=
  truthy rest && negb (String.eqb rest "/").

(** The request path is none of the three synthetic endpoints. *)
Definition ordinary (v : vars) (rest : string) : bool :=
  negb (String.eqb rest (CONSOLE_SCRIPT v))
  && negb (String.eqb rest (EXECUTING_SCRIPT v))
  && negb (String.eqb rest (MARKDOWN_STYLE v)).

(** One response appended to what a handler did before. *)
Definition answered (h : Handler.hstate) (r : response)
    : Handler.hstate * result unit :=
  ({| Handler.isFallback := Handler.isFallback h;
      Handler.effects := Handler.effects h ++ [Handler.Respond r] |}, Ok tt).

(** The active file of a JavaScript run, and its session before
    [startConsole()]. *)
Definition scriptFile : EditorFile :=
  {| mode := "normal"; SAFMode := "tree"; uri := Some "/proj/main.js";
     file_filename := "main.js"; loaded := true; isUnsaved := true;
     getValue := "console.log(1)" |}.

Definition scriptSession : vars :=
  {| uuid := "k3x"; isConsole := false; target := "browser";
     activeFile := Some scriptFile; filename := "main.js";
     pathName := Some "/proj"; EXECUTING_SCRIPT := "k3x_script.js" |}.

(** A file opened on its own, outside any folder. *)
Definition singleFile : EditorFile :=
  {| mode := "single"; SAFMode := "single"; uri := Some "content://docs/7";
     file_filename := "notes.txt"; loaded := true; isUnsaved := false;
     getValue := "remember the milk" |}.

Definition singleSession : vars :=
  {| uuid := "k3x"; isConsole := false; target := "inapp";
     activeFile := Some singleFile; filename := "notes.txt";
     pathName := None; EXECUTING_SCRIPT := "k3x_script.js" |}.

(** A world whose [mimeType.lookup] also takes file names, as the
    library does, and whose file system cannot be reached. *)
Definition offline : world :=
  {| Url_join := Sample.join_plain;
     Url_join_undefined := fun name => name;
     Url_extname := Sample.extname_of;
     lookup := fun name =>
       match Sample.lookup_of name with
       | Some m => Some m
       | None => Sample.lookup_of (Sample.extname_of name)
       end;
     decodeURIComponent := fun s => Some s;
     fs_stat := fun _ => Throw "connection lost";
     fs_exists := fun _ => Throw "connection lost";
     fs_readFile := fun _ => Throw "connection lost";
     getFile := fun _ => None;
     addedFolder0 := Some "/proj";
     markdown_render := fun s => s;
     console_page := "console";
     markdown_page := fun html => html;
     MIMETYPE_HTML := "text/html";
     ASSETS_DIRECTORY := "/assets";
     DATA_STORAGE := "/data";
     console_legacy := false;
     markdownStyle := None;
     showConsoleToggler := false |}.

End Console.

(** ** The shape of a slug *)

Module SlugShape.
Import JsString Slug.

(** The text holds only [a-z], [0-9] and hyphens, and no hyphen follows
    a hyphen; [after_hyphen] tells that the text comes after one. *)
Fixpoint well_formed (after_hyphen : bool) (t : string) : bool :=
  match t with
  | EmptyString => true
  | String c rest =>
      if is_alnum c then well_formed false rest
      else Ascii.eqb c "-" && negb after_hyphen && well_formed true rest
  end.

Definition slug_char (c : ascii) : bool := is_alnum c || Ascii.eqb c "-".

(** The characters that [/[^a-z0-9]+/] leaves in place, listed one by
    one. *)
Definition alphabet : string := "abcdefghijklmnopqrstuvwxyz0123456789".

Fixpoint occurs (c : ascii) (t : string) : bool :=
  match t with
  | EmptyString => false
  | String d rest => Ascii.eqb c d || occurs c rest
  end.

(** The text is made of ASCII characters only: there, one character of
    the model is one UTF-16 unit of the JavaScript string, and [trim] and
    [toLowerCase] are the ones of [JsString]. *)
Fixpoint ascii_text (t : string) : bool :=
  match t with
  | EmptyString => true
  | String c rest => (nat_of_ascii c <? 128)%nat && ascii_text rest
  end.

End SlugShape.

(** ** The text after the script tags were normalized (run.js 478) *)

Module Inject.
Import JsString.

Definition normalized (text0 : string) : string :=
  replace_all "></script>"
    (" crossorigin=" ++ dq ++ "anonymous" ++ dq ++ "></script>") text0.

End Inject.

(** ** More examples *)

Module Sample3.
Import JsString Http Env.

(** A request for a file of the device itself. *)
Definition reqLocal : Fetch.request :=
  {| Fetch.req_path := "file:///sdcard/logo.png"; Fetch.req_id := "5" |}.

(** A folder opened through the storage access framework, and a
    document two levels below it. *)
Definition safTree : string :=
  "content://com.android.externalstorage.documents/tree/primary%3Asite".

Definition safDir : string := (safTree ++ "::primary:site/pages")%string.

Definition safSession : vars := Scenario.sessionIn safDir.

End Sample3.

(* ================================================================== *)
(** * Part II: properties                                              *)
(* ================================================================== *)

(** ** Strings *)

Module StringFacts.
Import JsString.

Lemma append_empty (s : string) : (s ++ EmptyString)%string = s.
Proof. induction s as [|c s IH]; simpl; [reflexivity | now rewrite IH]. Qed.

Lemma append_assoc (a b c : string) :
  ((a ++ b) ++ c)%string = (a ++ (b ++ c))%string.
Proof. induction a as [|x a IH]; simpl; [reflexivity | now rewrite IH]. Qed.

Lemma prefix_cons (x y : ascii) (p s : string) :
  String.prefix (String x p) (String y s) = Ascii.eqb x y && String.prefix p s.
Proof.
  simpl. destruct (ascii_dec x y) as [->|N].
  - now rewrite Ascii.eqb_refl.
  - apply Ascii.eqb_neq in N. now rewrite N.
Qed.

Lemma prefix_append (p s : string) : String.prefix p (p ++ s) = true.
Proof.
  induction p as [|x p IH]; [now destruct s|].
  change (String x p ++ s)%string with (String x (p ++ s)).
  now rewrite prefix_cons, Ascii.eqb_refl, IH.
Qed.

Lemma prefix_split (p : string) :
  forall s : string,
    String.prefix p s = true -> s = (p ++ slice_from (String.length p) s)%string.
Proof.
  induction p as [|x p IH]; intros s H; [reflexivity|].
  destruct s as [|y s]; [discriminate|].
  rewrite prefix_cons in H. apply andb_true_iff in H as [Hxy Hp].
  apply Ascii.eqb_eq in Hxy. subst y. simpl. f_equal. now apply IH.
Qed.

Lemma includes_prefix (s p : string) :
  String.prefix p s = true -> includes s p = true.
Proof. intro H. destruct s; cbn [includes]; rewrite H; reflexivity. Qed.

Lemma includes_append_r (a s p : string) :
  includes s p = true -> includes (a ++ s) p = true.
Proof.
  intro H. induction a as [|x a IH]; [exact H|].
  change (String x a ++ s)%string with (String x (a ++ s)).
  cbn [includes]. rewrite IH. apply orb_true_r.
Qed.

(** A text that is put together around [b] includes [b]. *)
Lemma includes_middle (a b c : string) : includes (a ++ b ++ c) b = true.
Proof. apply includes_append_r, includes_prefix, prefix_append. Qed.

Lemma includes_wrapped (a h i t b : string) :
  includes (a ++ (h ++ i ++ t) ++ b) i = true.
Proof.
  apply includes_append_r. rewrite !append_assoc. apply includes_middle.
Qed.

(** Replacing the first occurrence of a pattern that occurs. *)
Lemma replace_first_occurs (pat rep : string) :
  forall s : string,
    includes s pat = true ->
    exists a b : string, replace_first pat rep s = (a ++ rep ++ b)%string.
Proof.
  induction s as [|c s IH]; intro H.
  - cbn [includes] in H. rewrite orb_false_r in H.
    exists EmptyString, (slice_from (String.length pat) EmptyString). cbn [replace_first].
    now rewrite H.
  - cbn [includes] in H. cbn [replace_first].
    destruct (String.prefix pat (String c s)) eqn:P.
    + now exists EmptyString, (slice_from (String.length pat) (String c s)).
    + simpl in H. destruct (IH H) as (a & b & E).
      exists (String c a), b. now rewrite E.
Qed.

End StringFacts.

(** ** Heading slugs *)

Module SlugFacts.
Import JsString Slug StringFacts.

Lemma render_cons (g : bool * string) (l : list (bool * string)) :
  render (g :: l) = (collapse g ++ render l)%string.
Proof.
  unfold render. simpl. destruct (map collapse l) as [|x xs] eqn:E.
  - simpl. now rewrite append_empty.
  - reflexivity.
Qed.

Lemma hyphenate_runs (s : string) :
  hyphenate false s = render (runs s) /\
  hyphenate true s = render (after_run (runs s)).
Proof.
  induction s as [|c s [IHf IHt]]; [split; reflexivity|].
  simpl. destruct (is_alnum c) eqn:Hc.
  - rewrite IHf.
    assert (E : render match runs s with
                      | [] => [(true, String c EmptyString)]
                      | (k, r) :: rest =>
                          if Bool.eqb k true then (k, String c r) :: rest
                          else (true, String c EmptyString) :: (k, r) :: rest
                      end = String c (render (runs s))).
    { destruct (runs s) as [|[[|] r] rest]; simpl Bool.eqb; cbv iota;
        rewrite ?render_cons; reflexivity. }
    split; [now rewrite E|].
    destruct (runs s) as [|[[|] r] rest]; simpl Bool.eqb in *; cbv iota in *;
      simpl after_run; now rewrite E.
  - rewrite IHt.
    destruct (runs s) as [|[[|] r] rest]; simpl Bool.eqb; cbv iota;
      simpl after_run; rewrite ?render_cons; simpl; split; reflexivity.
Qed.

(** C7, counterexample: the slug of "Hello World!" is not [hello-world]. *)
Lemma slugify_hello_world_not_bare : slugify "Hello World!" <> "hello-world".
Proof. vm_compute. discriminate. Qed.

Lemma is_alnum_alphabet (c : ascii) :
  is_alnum c = SlugShape.occurs c SlugShape.alphabet.
Proof. destruct c as [[] [] [] [] [] [] [] []]; reflexivity. Qed.

(** C7, as amended: the [slugify] callback that the [.md] route hands to
    the anchor plugin maps an ASCII heading text to the trimmed text,
    lowercased, with every maximal run of characters other than the
    letters [a] to [z] and the digits replaced by one hyphen, a run at
    the end of the text included; for the heading text "Hello World!"
    the callback returns [hello-world-].  What the plugin makes of the
    callback's result, such as the suffix of a repeated heading, is not
    part of the statement. *)
Theorem slugify_collapses_runs :
  (forall c : ascii, is_alnum c = SlugShape.occurs c SlugShape.alphabet) /\
  (forall s : string,
      SlugShape.ascii_text s = true -> slugify s = slug_spec (trim s)) /\
  slugify "Hello World!" = "hello-world-".
Proof.
  split; [exact is_alnum_alphabet|]. split; [|reflexivity].
  intros s _. unfold slugify, slug_spec.
  exact (proj1 (hyphenate_runs (toLowerCase (trim s)))).
Qed.

(** C7, witness: a heading with blanks around it, capitals and
    punctuation. *)
Lemma slugify_collapses_runs_witness :
  SlugShape.ascii_text "  Getting Started: Part 2 " = true /\
  slugify "  Getting Started: Part 2 "
  = slug_spec (trim "  Getting Started: Part 2 ") /\
  slugify "  Getting Started: Part 2 " = "getting-started-part-2".
Proof.
  split; [reflexivity|]. split; [|reflexivity].
  apply (proj1 (proj2 slugify_collapses_runs)). reflexivity.
Defined.

End SlugFacts.

(** ** The fetch serializer *)

Module FetchFacts.
Import JsString Http Fetch.

Lemma splice_last_snoc (q : list request) (r : request) :
  splice_last (q ++ [r]) = (q, Some r).
Proof. unfold splice_last. rewrite rev_app_distr. simpl. now rewrite rev_involutive. Qed.

Lemma splice_last_shorter (q q' : list request) (r : request) :
  splice_last q = (q', Some r) -> q = q' ++ [r].
Proof.
  unfold splice_last. destruct (rev q) as [|x front] eqn:E; [discriminate|].
  intro H. injection H as <- <-.
  rewrite <- (rev_involutive q), E. reflexivity.
Qed.

Lemma splice_last_none (q q' : list request) :
  splice_last q = (q', None) -> q = [].
Proof.
  unfold splice_last. destruct (rev q) as [|x front] eqn:E; [|discriminate].
  intros _. rewrite <- (rev_involutive q), E. reflexivity.
Qed.

Section WithCollaborators.
Variable getProtocol : string -> string.
Variable extname : string -> string.
Variable Url_join : string -> string -> string.
Variable lookup : string -> option string.
Variable hashCode : string -> string.
Variable CACHE_STORAGE : string.

Local Abbreviation sendFile := (sendFile getProtocol extname lookup).
Local Abbreviation sendFile_with := (sendFile_with getProtocol extname lookup).
Local Abbreviation run_queued := (run_queued getProtocol extname lookup).
Local Abbreviation next_action := (next_action getProtocol extname lookup).
Local Abbreviation serve := (serve extname lookup).
Local Abbreviation settle :=
  (settle getProtocol extname Url_join lookup hashCode CACHE_STORAGE).
Local Abbreviation step :=
  (step getProtocol extname Url_join lookup hashCode CACHE_STORAGE).
Local Abbreviation run :=
  (run getProtocol extname Url_join lookup hashCode CACHE_STORAGE).
Local Abbreviation served_path :=
  (served_path getProtocol Url_join hashCode CACHE_STORAGE).
Local Abbreviation served :=
  (served getProtocol extname Url_join lookup hashCode CACHE_STORAGE).

(** Any fuel that covers the queue gives the same result: the model of
    lines 547-548 never runs short. *)
Lemma run_queued_fuel (n : nat) :
  forall (m : nat) (s : session),
    (List.length (queue s) <= n)%nat -> (List.length (queue s) <= m)%nat ->
    run_queued n s = run_queued m s.
Proof.
  induction n as [|n IH]; intros m s Hn Hm.
  - destruct (queue s) eqn:Q; [|simpl in Hn; lia].
    destruct m; simpl; [reflexivity|]. now rewrite Q.
  - destruct m as [|m].
    + destruct (queue s) eqn:Q; [|simpl in Hm; lia]. simpl. now rewrite Q.
    + simpl. destruct (splice_last (queue s)) as [q [r|]] eqn:E; [|reflexivity].
      apply splice_last_shorter in E.
      assert (Hq : (List.length q <= n)%nat /\ (List.length q <= m)%nat).
      { rewrite E, length_app in Hn, Hm. simpl in Hn, Hm. lia. }
      unfold Fetch.sendFile_with. simpl.
      destruct (isLoading s); [reflexivity|].
      destruct (scheme_of getProtocol r); try reflexivity.
      apply IH; simpl; tauto.
Qed.

(** From a session with no read in flight and the flag down, running
    the queued closures leaves at most one read in flight. *)
Lemma run_queued_one_read (n : nat) :
  forall s : session,
    reading s = [] -> isLoading s = false -> one_read (run_queued n s).
Proof.
  induction n as [|n IH]; intros s Hr Hl.
  - simpl. split; [unfold in_flight; rewrite Hr; simpl; lia | now rewrite Hr].
  - simpl. destruct (splice_last (queue s)) as [q [r|]] eqn:E.
    + unfold Fetch.sendFile_with. simpl. rewrite Hl.
      destruct (scheme_of getProtocol r);
        try (split; [unfold in_flight; simpl; rewrite Hr; simpl; lia
                    | intros _; reflexivity]).
      apply IH; simpl; [assumption | reflexivity].
    + split; [unfold in_flight; rewrite Hr; simpl; lia | now rewrite Hr].
Qed.

Lemma one_read_idle (s : session) :
  one_read s -> isLoading s = false -> reading s = [].
Proof.
  intros [_ H] Hl. destruct (reading s) as [|r l]; [reflexivity|].
  rewrite H in Hl; [discriminate | discriminate].
Qed.

Lemma sendFile_one_read (s : session) (r : request) :
  one_read s -> one_read (sendFile s r).
Proof.
  intros Hs. unfold Fetch.sendFile, Fetch.sendFile_with.
  destruct (isLoading s) eqn:Hl.
  - destruct Hs as [H1 H2]. split; [exact H1 | intros _; exact Hl].
  - pose proof (one_read_idle s Hs Hl) as Hr.
    destruct (scheme_of getProtocol r);
      try (split; [unfold in_flight; simpl; rewrite Hr; simpl; lia
                  | intros _; reflexivity]).
    apply run_queued_one_read; simpl; [assumption | reflexivity].
Qed.

Lemma settle_one_read (i : nat) (o : settled string) (s : session) :
  one_read s -> one_read (settle i o s).
Proof.
  intros Hs. unfold Fetch.settle.
  destruct (nth_error (reading s) i) as [r|] eqn:E; [|exact Hs].
  assert (Hr : reading (resume i s) = []).
  { destruct Hs as [H1 _]. unfold in_flight in H1. simpl.
    destruct (reading s) as [|x [|y l]]; simpl in H1; try lia.
    - destruct i; discriminate.
    - destruct i as [|[|i]]; simpl in *; try reflexivity; discriminate. }
  assert (Hidle : forall t : session, reading t = [] -> one_read t).
  { intros t Ht. split; [unfold in_flight; rewrite Ht; simpl; lia | now rewrite Ht]. }
  destruct (scheme_of getProtocol r), o;
    try (apply run_queued_one_read; simpl; [assumption | reflexivity]);
    apply Hidle; simpl; assumption.
Qed.

Lemma run_one_read (es : list event) :
  forall s : session, one_read s -> one_read (run s es).
Proof.
  induction es as [|e es IH]; intros s Hs; [exact Hs|].
  simpl. apply IH. destruct e as [r|i o]; simpl.
  - now apply sendFile_one_read.
  - now apply settle_one_read.
Qed.

Lemma initial_one_read : one_read initial.
Proof. split; [unfold in_flight; simpl; lia | intros H; now elim H]. Qed.

(** C1: in every session reachable from the initial one, at most one
    read is in flight, the flag is set while a read is in flight, and a
    call of [sendFile] that finds the flag set only appends its request to
    the queue: it starts no read and sends nothing. *)
Theorem sendFile_serializes_reads (es : list event) (r : request) :
  let s := run initial es in
  (in_flight s <= 1)%nat /\
  (in_flight s = 1%nat -> isLoading s = true) /\
  (isLoading s = true ->
     step s (Call r) = push r s /\
     queue (step s (Call r)) = queue s ++ [r] /\
     reading (step s (Call r)) = reading s /\
     sent (step s (Call r)) = sent s).
Proof.
  intro s. destruct (run_one_read es initial initial_one_read) as [H1 H2].
  fold s in H1, H2. split; [exact H1|]. split.
  - intro H. apply H2. unfold in_flight in H.
    destruct (reading s); [discriminate | discriminate].
  - intro Hl. simpl. unfold Fetch.sendFile, Fetch.sendFile_with. rewrite Hl.
    repeat split.
Qed.

Lemma sendFile_with_ext (k1 k2 : session -> session) (s : session) (r : request) :
  (forall t : session, queue t = queue s -> k1 t = k2 t) ->
  sendFile_with k1 s r = sendFile_with k2 s r.
Proof.
  intro H. unfold Fetch.sendFile_with. destruct (isLoading s); [reflexivity|].
  destruct (scheme_of getProtocol r); try reflexivity. now apply H.
Qed.

(** Lines 547-548 in one step: the closure queued last is taken out and
    called, the others stay. *)
Lemma next_action_step (s : session) :
  next_action s =
    match splice_last (queue s) with
    | (q, Some r) => sendFile (set_queue q s) r
    | (_, None) => s
    end.
Proof.
  unfold Fetch.next_action.
  destruct (splice_last (queue s)) as [q [r|]] eqn:E.
  - pose proof (splice_last_shorter _ _ _ E) as Hq.
    replace (List.length (queue s)) with (S (List.length q))
      by (rewrite Hq, length_app; simpl; lia).
    cbn [Fetch.run_queued]. rewrite E. unfold Fetch.sendFile.
    apply sendFile_with_ext. intros t Ht. unfold Fetch.next_action.
    now rewrite Ht.
  - apply splice_last_none in E. rewrite E. reflexivity.
Qed.

Lemma settle_fulfilled (s : session) (a : request) (p : string) :
  reading s = [a] -> suspends getProtocol a ->
  settle 0 (Fulfilled p) s = next_action (serve a (served_path a p) (resume 0 s)).
Proof.
  intros Hr Ha. unfold Fetch.settle, served_path, suspends in *. rewrite Hr.
  cbn [nth_error]. destruct (scheme_of getProtocol a); try reflexivity.
  now elim Ha.
Qed.

(** After a read that succeeds with requests waiting, the one queued
    last is reading and the others are still queued. *)
Lemma settle_starts_newest (s : session) (a r : request) (q : list request)
    (p : string) :
  reading s = [a] -> queue s = q ++ [r] ->
  suspends getProtocol a -> suspends getProtocol r ->
  settle 0 (Fulfilled p) s =
    {| isLoading := true; queue := q; reading := [r];
       sent := sent s ++ [served a p] |}.
Proof.
  intros Hr Hq Ha Hs. rewrite (settle_fulfilled s a p Hr Ha), next_action_step.
  simpl queue. rewrite Hq, splice_last_snoc.
  unfold Fetch.sendFile, Fetch.sendFile_with, suspends in *.
  destruct (scheme_of getProtocol r); try (now elim Hs);
    unfold Fetch.suspend, Fetch.set_loading, Fetch.set_queue, Fetch.serve,
      Fetch.send, Fetch.resume, Fetch.served;
    simpl; rewrite Hr; reflexivity.
Qed.

Lemma settle_last (s : session) (a : request) (p : string) :
  reading s = [a] -> queue s = [] -> suspends getProtocol a ->
  settle 0 (Fulfilled p) s =
    {| isLoading := false; queue := []; reading := [];
       sent := sent s ++ [served a p] |}.
Proof.
  intros Hr Hq Ha. rewrite (settle_fulfilled s a p Hr Ha), next_action_step.
  simpl queue. rewrite Hq.
  unfold Fetch.set_loading, Fetch.serve, Fetch.send, Fetch.resume, Fetch.served.
  simpl. rewrite Hr, Hq. reflexivity.
Qed.

(** Reads that all succeed serve the waiting requests newest first. *)
Lemma settles_serve_newest_first (p : string) (q : list request) :
  forall (s : session) (a : request),
    reading s = [a] -> queue s = q ->
    Forall (suspends getProtocol) (a :: q) ->
    let s' := run s (repeat (Settle 0 (Fulfilled p)) (S (List.length q))) in
    sent s' = sent s ++ map (fun r => served r p) (a :: rev q) /\
    queue s' = [] /\ reading s' = [].
Proof.
  induction q as [|r q IH] using rev_ind; intros s a Hr Hq HF; cbv zeta.
  - cbn [List.length repeat Fetch.run fold_left Fetch.step].
    inversion HF; subst.
    rewrite (settle_last s a p Hr Hq); [|assumption]. now repeat split.
  - rewrite length_app, Nat.add_1_r.
    change (repeat (Settle 0 (Fulfilled p)) (S (S (List.length q))))
      with (Settle 0 (Fulfilled p)
              :: repeat (Settle 0 (Fulfilled p)) (S (List.length q))).
    cbn [Fetch.run fold_left Fetch.step].
    inversion HF as [|? ? Ha Hq']; subst.
    apply Forall_app in Hq' as [Hq' Hr'].
    inversion Hr' as [|? ? Hsr _]; subst.
    rewrite (settle_starts_newest s a r q p Hr Hq Ha Hsr).
    destruct (IH {| isLoading := true; queue := q; reading := [r];
                    sent := sent s ++ [served a p] |} r
                 eq_refl eq_refl (Forall_cons r Hsr Hq')) as (H1 & H2 & H3).
    cbv zeta in H1, H2, H3. unfold Fetch.run in H1, H2, H3.
    rewrite H1, H2, H3. cbn [sent]. rewrite rev_app_distr. cbn [rev app map].
    rewrite <- app_assoc. now repeat split.
Qed.

(** While the flag is set, calls from outside only lengthen the queue. *)
Lemma calls_while_loading (rs : list request) :
  forall s : session,
    isLoading s = true ->
    run s (map Call rs) =
      {| isLoading := true; queue := queue s ++ rs; reading := reading s;
         sent := sent s |}.
Proof.
  induction rs as [|r rs IH]; intros s Hl.
  - simpl. rewrite app_nil_r. destruct s; simpl in *; now subst.
  - cbn [map Fetch.run fold_left Fetch.step].
    unfold Fetch.sendFile, Fetch.sendFile_with. rewrite Hl.
    change (fold_left step (map Call rs) (push r s))
      with (run (push r s) (map Call rs)).
    rewrite IH by exact Hl. cbn [push set_queue queue reading sent].
    now rewrite <- app_assoc.
Qed.

(** The [catch] branch: the 404, the flag down, and the queue as it was. *)
Lemma settle_rejected_remote (s : session) (a : request) (e : string) :
  reading s = [a] -> scheme_of getProtocol a = Remote ->
  settle 0 (Rejected e) s =
    {| isLoading := false; queue := queue s; reading := [];
       sent := sent s ++ [Status404 (req_id a)] |}.
Proof.
  intros Hr Ha. unfold Fetch.settle. rewrite Hr. cbn [nth_error]. rewrite Ha.
  unfold set_loading, send, resume. cbn [isLoading queue reading sent].
  rewrite Hr. reflexivity.
Qed.

(** With no read in flight a settling promise finds nothing to resume,
    so the queue is only looked at again by a call from outside. *)
Lemma run_settles_idle (ios : list (nat * settled string)) (s : session) :
  reading s = [] -> run s (settles ios) = s.
Proof.
  intro Hr. induction ios as [|[i o] ios IH]; [reflexivity|].
  simpl. unfold Fetch.settle. rewrite Hr.
  destruct i; simpl; exact IH.
Qed.

End WithCollaborators.

(** C1, witness: with a read of [reqA] in flight, a call for [reqB] is
    only queued. *)
Lemma sendFile_serializes_reads_witness :
  isLoading (Sample.fetch_run initial [Call Sample.reqA]) = true /\
  Fetch.step Sample.protocol_of Sample.extname_of Sample.join_plain
    Sample.lookup_of Sample.hash_of "/cache"
    (Sample.fetch_run initial [Call Sample.reqA]) (Call Sample.reqB)
  = push Sample.reqB (Sample.fetch_run initial [Call Sample.reqA]).
Proof.
  split; [reflexivity|].
  apply (sendFile_serializes_reads Sample.protocol_of Sample.extname_of
           Sample.join_plain Sample.lookup_of Sample.hash_of "/cache"
           [Call Sample.reqA] Sample.reqB).
  reflexivity.
Defined.

(** C2, counterexample: with [reqB] queued before [reqC] behind the
    read of [reqA], the success of that read starts [reqC], the one
    appended last, and leaves [reqB], the earliest, in the queue; and
    when the read fails instead, nothing is taken from the queue. *)
Lemma sendFile_not_fifo :
  queue (Sample.fetch_run initial
           [Call Sample.reqA; Call Sample.reqB; Call Sample.reqC])
    = [Sample.reqB; Sample.reqC] /\
  reading (Sample.fetch_run initial
             [Call Sample.reqA; Call Sample.reqB; Call Sample.reqC;
              Settle 0 (Fulfilled "ok")]) = [Sample.reqC] /\
  queue (Sample.fetch_run initial
           [Call Sample.reqA; Call Sample.reqB; Call Sample.reqC;
            Settle 0 (Fulfilled "ok")]) = [Sample.reqB] /\
  queue (Sample.fetch_run initial
           [Call Sample.reqA; Call Sample.reqB; Call Sample.reqC;
            Settle 0 (Rejected "timeout")]) = [Sample.reqB; Sample.reqC] /\
  reading (Sample.fetch_run initial
             [Call Sample.reqA; Call Sample.reqB; Call Sample.reqC;
              Settle 0 (Rejected "timeout")]) = [].
Proof. vm_compute. repeat split. Qed.

Section NewestFirst.
Variable getProtocol : string -> string.
Variable extname : string -> string.
Variable Url_join : string -> string -> string.
Variable lookup : string -> option string.
Variable hashCode : string -> string.
Variable CACHE_STORAGE : string.

Local Abbreviation served_path :=
  (served_path getProtocol Url_join hashCode CACHE_STORAGE).
Local Abbreviation served :=
  (served getProtocol extname Url_join lookup hashCode CACHE_STORAGE).

(** C2, as amended: after every fetch that completes by serving
    content, exactly one queued continuation (if any) is taken from the
    queue and run next, and it is the one appended last; over any
    sequence of such completions the order is last in, first out,
    whatever the depth of the queue: the waiting requests are served in
    the reverse of the order in which they were appended. *)
Theorem sendFile_dequeues_newest_first :
  (forall (s : session) (a : request) (p : string),
     reading s = [a] -> suspends getProtocol a ->
     let s' := serve extname lookup a (served_path a p) (resume 0 s) in
     settle getProtocol extname Url_join lookup hashCode CACHE_STORAGE
       0 (Fulfilled p) s =
       match splice_last (queue s) with
       | (q, Some r) => sendFile getProtocol extname lookup (set_queue q s') r
       | (_, None) => s'
       end) /\
  (forall (q : list request) (r : request),
     splice_last (q ++ [r]) = (q, Some r)) /\
  (forall (q : list request) (s : session) (a : request) (p : string),
     reading s = [a] -> queue s = q ->
     Forall (suspends getProtocol) (a :: q) ->
     let s' := run getProtocol extname Url_join lookup hashCode CACHE_STORAGE
                 s (repeat (Settle 0 (Fulfilled p)) (S (List.length q))) in
     sent s' = sent s ++ map (fun r => served r p) (a :: rev q) /\
     queue s' = [] /\ reading s' = []).
Proof.
  split; [|split].
  - intros s a p Hr Ha. cbv zeta.
    rewrite (settle_fulfilled getProtocol extname Url_join lookup hashCode
               CACHE_STORAGE s a p Hr Ha).
    rewrite next_action_step. reflexivity.
  - apply splice_last_snoc.
  - intros q s a p. apply settles_serve_newest_first.
Qed.

End NewestFirst.

(** C2, witness: [reqA] is reading, [reqB] and then [reqC] were queued;
    three reads succeed and the answers go out for 1, 3, 2. *)
Lemma sendFile_dequeues_newest_first_witness :
  map response_id
    (sent (Sample.fetch_run
             (Sample.fetch_run initial
                [Call Sample.reqA; Call Sample.reqB; Call Sample.reqC])
             (repeat (Settle 0 (Fulfilled "ok")) 3)))
  = ["1"; "3"; "2"].
Proof.
  pose proof (proj1 (proj2 (proj2
    (sendFile_dequeues_newest_first Sample.protocol_of Sample.extname_of
       Sample.join_plain Sample.lookup_of Sample.hash_of "/cache"))
    [Sample.reqB; Sample.reqC]
    (Sample.fetch_run initial
       [Call Sample.reqA; Call Sample.reqB; Call Sample.reqC])
    Sample.reqA "ok" eq_refl eq_refl
    ltac:(repeat constructor; discriminate))) as H.
  cbv zeta in H. unfold Sample.fetch_run at 1.
  change (S (List.length [Sample.reqB; Sample.reqC])) with 3%nat in H.
  rewrite H. reflexivity.
Defined.

(** C3, at the failing input: [reqA] fails to read with [reqB] queued
    behind it.  [reqA] gets its 404, but [reqB] stays in the queue with
    no read started, and no settling promise changes that: only
    another call of [sendFile] from outside can get it out. *)
Theorem sendFile_failure_strands_queue :
  let s := Sample.fetch_run initial
             [Call Sample.reqA; Call Sample.reqB; Settle 0 (Rejected "timeout")] in
  sent s = [Status404 "1"] /\
  queue s = [Sample.reqB] /\
  reading s = [] /\
  isLoading s = false /\
  forall ios : list (nat * settled string),
    Sample.fetch_run s (settles ios) = s.
Proof.
  cbv zeta. repeat split; try reflexivity.
  intro ios. unfold Sample.fetch_run. now apply run_settles_idle.
Qed.

End FetchFacts.

(** ** Starting the server *)

Module ServerFacts.
Import JsString Http Server.
Local Open Scope Z_scope.

Lemma creations_createServer (s : server) :
  creations (createServer s) = (creations s ++ [port s])%list.
Proof.
  unfold createServer, creations.
  destruct (webServer s); simpl; rewrite !flat_map_app; simpl;
    rewrite ?app_nil_r; reflexivity.
Qed.

Lemma start_same_owner (target : string) (a : attempt) (rest : list attempt)
    (s : server) :
  proceeds target a = true -> bound a = Failed "Server already running" ->
  start target (a :: rest) s = openBrowser (createServer s).
Proof.
  unfold proceeds. intros Hp Hb. simpl.
  apply negb_true_iff in Hp. rewrite Hp, Hb. reflexivity.
Qed.

Lemma start_retry (target : string) (a : attempt) (rest : list attempt)
    (s : server) :
  proceeds target a = true -> fails_otherwise a = true ->
  start target (a :: rest) s = start target rest (next_port (createServer s)).
Proof.
  unfold proceeds, fails_otherwise. intros Hp Hf. simpl.
  apply negb_true_iff in Hp. rewrite Hp.
  destruct (bound a) as [|err]; [discriminate|].
  unfold onError. apply negb_true_iff in Hf. now rewrite Hf.
Qed.

Lemma port_createServer (s : server) : port (createServer s) = port s.
Proof. unfold createServer. destruct (webServer s); reflexivity. Qed.

Lemma webServer_createServer (s : server) :
  webServer (createServer s) = Some (port s).
Proof. unfold createServer. destruct (webServer s); reflexivity. Qed.

Lemma creations_openBrowser (s : server) :
  creations (openBrowser s) = creations s.
Proof.
  unfold openBrowser, log, creations. simpl. rewrite flat_map_app. simpl.
  apply app_nil_r.
Qed.

Lemma start_listening (target : string) (a : attempt) (rest : list attempt)
    (s : server) :
  proceeds target a = true -> bound a = Listening ->
  start target (a :: rest) s = openBrowser (createServer s).
Proof.
  unfold proceeds. intros Hp Hb. simpl.
  apply negb_true_iff in Hp. rewrite Hp, Hb. reflexivity.
Qed.

Lemma start_retries (target : string) (a : attempt) :
  proceeds target a = true -> bound a = Listening ->
  forall (busy : list attempt) (s : server),
    Forall (fun b => proceeds target b = true /\ fails_otherwise b = true) busy ->
    let s' := start target (busy ++ [a]) s in
    port s' = port s + Z.of_nat (List.length busy) /\
    webServer s' = Some (port s') /\
    creations s' = (creations s ++ ports_from (port s) (S (List.length busy)))%list /\
    List.last (actions s') Alert = OpenBrowser (port s').
Proof.
  intros Hp Hb. induction busy as [|b busy IH]; intros s Hbusy.
  - cbn [app List.length]. cbv zeta.
    rewrite (start_listening target a [] s Hp Hb).
    rewrite creations_openBrowser, creations_createServer.
    unfold openBrowser, log. cbn [port webServer actions].
    rewrite last_last, port_createServer, webServer_createServer.
    repeat split. simpl. lia.
  - inversion Hbusy as [|? ? [Hpb Hfb] Hrest]; subst.
    cbv zeta. change ((b :: busy) ++ [a])%list with (b :: (busy ++ [a]))%list.
    rewrite (start_retry target b (busy ++ [a]) s Hpb Hfb).
    destruct (IH (next_port (createServer s)) Hrest) as (H1 & H2 & H3 & H4).
    cbv zeta in H1, H2, H3, H4.
    assert (Hport : port (next_port (createServer s)) = port s + 1).
    { unfold next_port. cbn [port]. now rewrite port_createServer. }
    assert (Hcre : creations (next_port (createServer s))
                   = (creations s ++ [port s])%list).
    { unfold next_port, creations. cbn [actions]. apply creations_createServer. }
    split; [rewrite H1, Hport; cbn [List.length]; lia|].
    split; [exact H2|]. split; [|exact H4].
    rewrite H3, Hcre, Hport, <- app_assoc. reflexivity.
Qed.

(** C9: when the bind fails because the port is already owned by this
    component ("Server already running"), the browser is opened on the
    same port and nothing is started again, whatever further answers
    were available; when it fails for another reason, the port is
    incremented by one and [start()] runs again, as many times as the
    bind fails: after [n] such failures the server is created on the
    [n]-th next port and the browser is opened there. *)
Theorem startServer_bind_failure (target : string) (s : server)
    (a : attempt) (busy rest : list attempt) :
  proceeds target a = true ->
  Forall (fun b => proceeds target b = true /\ fails_otherwise b = true) busy ->
  (bound a = Failed "Server already running" ->
     start target (a :: rest) s = openBrowser (createServer s) /\
     port (start target (a :: rest) s) = port s /\
     creations (start target (a :: rest) s) = (creations s ++ [port s])%list) /\
  (fails_otherwise a = true ->
     start target (a :: rest) s = start target rest (next_port (createServer s)) /\
     port (next_port (createServer s)) = port s + 1) /\
  (bound a = Listening ->
     let s' := start target (busy ++ [a]) s in
     port s' = port s + Z.of_nat (List.length busy) /\
     webServer s' = Some (port s') /\
     creations s' = (creations s ++ ports_from (port s) (S (List.length busy)))%list /\
     List.last (actions s') Alert = OpenBrowser (port s')).
Proof.
  intros Hp Hbusy. split; [|split].
  - intro Hb. rewrite (start_same_owner target a rest s Hp Hb).
    rewrite creations_openBrowser, creations_createServer.
    unfold openBrowser, log. cbn [port]. rewrite port_createServer.
    repeat split.
  - intro Hf. split; [now apply start_retry|].
    unfold next_port. cbn [port]. now rewrite port_createServer.
  - intro Hb. now apply start_retries.
Qed.

(** C9, witness: the port 8158 is taken three times by someone else. *)
Lemma startServer_bind_failure_witness :
  start "inapp" [Scenario.alreadyRunning; Scenario.listening] (fresh 8158)
    = openBrowser (createServer (fresh 8158)) /\
  start "inapp" [Scenario.portTaken] (fresh 8158)
    = start "inapp" [] (next_port (createServer (fresh 8158))) /\
  port (start "inapp"
          ([Scenario.portTaken; Scenario.portTaken; Scenario.portTaken]
             ++ [Scenario.listening]) (fresh 8158)) = 8161.
Proof.
  split; [|split].
  - apply (startServer_bind_failure "inapp" (fresh 8158) Scenario.alreadyRunning
             [] [Scenario.listening]); [reflexivity | constructor | reflexivity].
  - apply (startServer_bind_failure "inapp" (fresh 8158) Scenario.portTaken
             [] []); [reflexivity | constructor | reflexivity].
  - apply (startServer_bind_failure "inapp" (fresh 8158) Scenario.listening
             [Scenario.portTaken; Scenario.portTaken; Scenario.portTaken] []);
      [reflexivity | repeat constructor | reflexivity].
Defined.

End ServerFacts.

(** ** The request handler *)

Module HandlerFacts.
Import JsString Http Env Handler StringFacts.

Lemma responses_app (h : hstate) (x : effect) :
  responses {| isFallback := isFallback h; effects := effects h ++ [x] |}
  = (responses h ++ match x with Respond r => [r] | _ => [] end)%list.
Proof. unfold responses. simpl. rewrite flat_map_app. simpl. now rewrite app_nil_r. Qed.

Section WithWorld.
Variable w : world.
Variable v : vars.

(** When the url does not exist, [sendFileContent] does one of three
    things, by what [exists()] says of the fallback. *)
Lemma sendFileContent_missing (url id mime : string) (h : hstate) :
  fs_exists w url = Ok false ->
  sendFileContent w v url id mime h =
    match fs_exists w (fallbackPath w v) with
    | Ok true => ({| isFallback := true; effects := effects h |}, Ok tt)
    | Ok false =>
        ({| isFallback := isFallback h;
            effects := effects h ++ [Respond (Status404 id)] |}, Ok tt)
    | Throw e => (h, Throw e)
    end.
Proof.
  intro H. unfold sendFileContent, bind, await. rewrite H. simpl.
  destruct (fs_exists w (fallbackPath w v)) as [[|]|e]; reflexivity.
Qed.

(** C10: when the file at the url does not exist, [sendFileContent]
    adds no 200 response; it sends a 404 when the fallback file
    [pathName/filename] does not exist either, and when the fallback does
    exist it only sets [isFallback] and returns without any response. *)
Theorem sendFileContent_missing_url_no_200 (url id mime : string) (h : hstate) :
  fs_exists w url = Ok false ->
  let h' := fst (sendFileContent w v url id mime h) in
  (forall r : response,
     In r (responses h') -> is_200 r = true -> In r (responses h)) /\
  (fs_exists w (fallbackPath w v) = Ok false ->
     effects h' = effects h ++ [Respond (Status404 id)]) /\
  (fs_exists w (fallbackPath w v) = Ok true ->
     effects h' = effects h /\ isFallback h' = true /\
     snd (sendFileContent w v url id mime h) = Ok tt).
Proof.
  intro H. cbv zeta. rewrite (sendFileContent_missing url id mime h H).
  split; [|split].
  - intros r Hin H200.
    destruct (fs_exists w (fallbackPath w v)) as [[|]|e]; simpl in Hin;
      try exact Hin.
    rewrite responses_app in Hin. apply in_app_or in Hin as [Hin|Hin];
      [exact Hin|].
    destruct Hin as [<-|[]]. discriminate.
  - intros ->. reflexivity.
  - intros ->. repeat split.
Qed.

(** In folder mode a failing [stat()] ends [sendByExt] by the throw,
    with nothing sent. *)
Lemma sendByExt_stat_throws (af : EditorFile) (p url0 ext reqPath reqId e : string)
    (h : hstate) :
  isConsole v = false -> activeFile v = Some af ->
  String.eqb (mode af) "single" = false ->
  pathName v = Some p -> truthy p = true -> uri af = Some url0 ->
  fs_stat w (fullPathOf w p (strip_leading_slashes reqPath)) = Throw e ->
  sendByExt w v ext reqPath reqId h = (h, Throw e).
Proof.
  intros Hc Ha Hm Hp Ht Hu Hs. unfold sendByExt.
  rewrite Hc, Ha, Hm, Hp, Hu. simpl. rewrite Ht.
  unfold bind, await. now rewrite Hs.
Qed.

(** The [.md] case answers only from an open document: with none it
    does nothing, and with one the body is rendered from the editor
    text. *)
Lemma dispatch_md (reqPath reqId : string) (url : option string)
    (file : option EditorFile) (h : hstate) :
  dispatch w v ".md" reqPath reqId url file h =
    match file with
    | None => (h, Ok tt)
    | Some f =>
        sendText (markdown_page w (markdown_render w (getValue f))) reqId
          (Some (MIMETYPE_HTML w)) h
    end.
Proof. unfold dispatch. simpl. destruct file; reflexivity. Qed.

(** Where the block goes when the text has no upper-case [<HTML>]
    problem: the output contains it. *)
Lemma instrument_contains_injected (text0 : string) :
  let text :=
    replace_all "></script>"
      (" crossorigin=" ++ dq ++ "anonymous" ++ dq ++ "></script>") text0 in
  includes text "<html>" = true \/ includes (toLowerCase text) "<html>" = false ->
  includes (instrument w v text0) (injected w v) = true.
Proof.
  cbv zeta. intro H. unfold instrument.
  set (text := replace_all _ _ text0) in *.
  destruct (split text "<head>") as [|p0 [|p1 [|p2 l]]] eqn:E.
  1,2,4:
    destruct (includes (toLowerCase text) "<html>") eqn:L;
    [ destruct H as [H|H]; [|discriminate];
      destruct (replace_first_occurs "<html>"
                  ("<html><head>" ++ injected w v ++ "</head>") text H)
        as (a & b & ->);
      apply includes_wrapped
    | apply (includes_middle "<head>" (injected w v) ("</head>" ++ text)) ].
  apply includes_append_r. apply (includes_middle "<head>" (injected w v) p1).
Qed.

End WithWorld.

(** C10, witness: the stylesheet [/x.css] is missing; with the fallback
    [/proj/index.html] missing too the answer is a 404, and with the
    fallback present nothing is sent. *)
Lemma sendFileContent_missing_url_no_200_witness :
  effects (fst (sendFileContent Scenario.emptyDisk Scenario.folderSession
                  "/x.css" "4" "text/css" start_state))
    = [Respond (Status404 "4")] /\
  effects (fst (sendFileContent
                  (Scenario.worldOf (fun _ => Throw "unused")
                     (fun p => Ok (String.eqb p "/proj/index.html"))
                     (fun _ => None) None)
                  Scenario.folderSession "/x.css" "4" "text/css" start_state))
    = [].
Proof.
  split.
  - apply (sendFileContent_missing_url_no_200 Scenario.emptyDisk
             Scenario.folderSession "/x.css" "4" "text/css" start_state);
      reflexivity.
  - apply (sendFileContent_missing_url_no_200
             (Scenario.worldOf (fun _ => Throw "unused")
                (fun p => Ok (String.eqb p "/proj/index.html"))
                (fun _ => None) None)
             Scenario.folderSession "/x.css" "4" "text/css" start_state);
      reflexivity.
Defined.

(** C4, at the failing inputs: the folder [/proj] cannot be reached
    when [/src/app.js] is requested.  [stat()] rejects, nothing catches
    it: the handler ends by the throw and no response is sent, while a
    target that [stat()] reports missing does get its 404.  In
    [sendFile], only the ftp read is guarded: when the promise of a
    [content:] path rejects, the call ends with [isLoading] still set
    and no response, and every later call is queued for ever. *)
Theorem filesystem_failures_escape :
  handleRequest Scenario.unreachable Scenario.folderSession "src/app.js" "9"
    start_state = (start_state, Throw "connection lost") /\
  handleRequest Scenario.emptyDisk Scenario.folderSession "src/app.js" "9"
    start_state
  = ({| isFallback := false; effects := [Respond (Status404 "9")] |}, Ok tt) /\
  Sample.fetch_run Fetch.initial
    [Fetch.Call Sample.reqSaf; Fetch.Settle 0 (Rejected "denied")]
  = {| Fetch.isLoading := true; Fetch.queue := []; Fetch.reading := [];
       Fetch.sent := [] |} /\
  forall later : list Fetch.request,
    Sample.fetch_run
      (Sample.fetch_run Fetch.initial
         [Fetch.Call Sample.reqSaf; Fetch.Settle 0 (Rejected "denied")])
      (map Fetch.Call later)
    = {| Fetch.isLoading := true; Fetch.queue := later; Fetch.reading := [];
         Fetch.sent := [] |}.
Proof.
  split; [vm_compute; reflexivity|]. split; [vm_compute; reflexivity|].
  split; [vm_compute; reflexivity|].
  intro later. unfold Sample.fetch_run at 1.
  rewrite FetchFacts.calls_while_loading; reflexivity.
Qed.

(** C5, at the failing input: [/report.md] exists on disk and is not
    open in the editor.  The [.md] case has no [else]: the handler
    returns with no response at all, neither a 404 nor content. *)
Theorem handleRequest_md_on_disk_gets_no_response :
  handleRequest Scenario.onDisk Scenario.folderSession "report.md" "7"
    start_state = (start_state, Ok tt).
Proof. vm_compute. reflexivity. Qed.

(** C8, at the failing input: the only [html] tag is in upper case.  The
    test [/<html>/i] accepts it, [replace("<html>", ...)] does not find
    it, and the text is sent as it came, without the injected block. *)
Theorem sendHTML_uppercase_html_not_instrumented :
  let text := "<HTML><body></body></HTML>" in
  instrument Scenario.onDisk Scenario.folderSession text = text /\
  includes (instrument Scenario.onDisk Scenario.folderSession text)
           (injected Scenario.onDisk Scenario.folderSession) = false /\
  sendHTML Scenario.onDisk Scenario.folderSession text "5" start_state
  = ({| isFallback := false;
        effects := [Respond (Status200Body "5" text "text/html")] |}, Ok tt).
Proof. vm_compute. repeat split. Qed.

End HandlerFacts.

(** ** The path resolver *)

Module RelPathFacts.
Import JsString Env RelPath StringFacts.

(** *** Splitting at slashes *)

Lemma split_slash_cons (c : ascii) (s : string) :
  split (String c s) "/" =
    if is_slash c then EmptyString :: split s "/"
    else match split s "/" with
         | h :: t => String c h :: t
         | [] => [String c EmptyString]
         end.
Proof.
  unfold split. cbn [split_go]. rewrite prefix_cons.
  replace (String.prefix EmptyString s) with true by (now destruct s).
  rewrite andb_true_r, Ascii.eqb_sym. reflexivity.
Qed.

Lemma split_slash_nonempty (s : string) : split s "/" <> [].
Proof.
  destruct s as [|c s]; [discriminate|].
  rewrite split_slash_cons. destruct (is_slash c); [discriminate|].
  destruct (split s "/"); discriminate.
Qed.

Lemma split_slash_append (a b : string) :
  split (a ++ "/" ++ b) "/" = split a "/" ++ split b "/".
Proof.
  induction a as [|c a IH].
  - change (EmptyString ++ "/" ++ b)%string with (String "/" b).
    now rewrite split_slash_cons.
  - change (String c a ++ "/" ++ b)%string with (String c (a ++ "/" ++ b)).
    rewrite !split_slash_cons, IH. destruct (is_slash c); [reflexivity|].
    destruct (split a "/") as [|h t] eqn:E; [now apply split_slash_nonempty in E|].
    reflexivity.
Qed.

Lemma join_cons (x : string) (l : list string) :
  l <> [] -> join (x :: l) "/" = (x ++ "/" ++ join l "/")%string.
Proof. destruct l; [now intros []|reflexivity]. Qed.

Lemma join_split_slash (s : string) : join (split s "/") "/" = s.
Proof.
  induction s as [|c s IH]; [reflexivity|].
  rewrite split_slash_cons. destruct (is_slash c) eqn:C.
  - rewrite join_cons by apply split_slash_nonempty. rewrite IH.
    apply Ascii.eqb_eq in C. now subst c.
  - destruct (split s "/") as [|h t] eqn:E; [now apply split_slash_nonempty in E|].
    rewrite <- IH. destruct t; reflexivity.
Qed.

(** The segments of a root and of the same root without its trailing
    slashes differ by empty segments at the end. *)
Lemma split_strip_trailing (R : string) :
  exists E : list string,
    split R "/" = split (strip_trailing_slashes R) "/" ++ E /\
    Forall (fun e => e = EmptyString) E.
Proof.
  induction R as [|c R (E & HE & HF)]; [now exists []|].
  cbn [strip_trailing_slashes]. rewrite split_slash_cons.
  destruct (is_slash c) eqn:C; cbn [andb].
  - destruct (String.eqb (strip_trailing_slashes R) EmptyString) eqn:Z.
    + apply String.eqb_eq in Z. rewrite Z in HE.
      exists (EmptyString :: E). split; [now rewrite HE | now constructor].
    + exists E. rewrite split_slash_cons, C, HE. now split.
  - exists E. rewrite split_slash_cons, C, HE.
    destruct (split (strip_trailing_slashes R) "/") as [|h t] eqn:S;
      [now apply split_slash_nonempty in S|]. now split.
Qed.

Lemma split_leading_segment (s : string) :
  leading_segment s = true ->
  exists (h : string) (t : list string),
    split s "/" = h :: t /\ h <> EmptyString.
Proof.
  destruct s as [|c s]; [discriminate|]. cbn [leading_segment]. intro H.
  apply negb_true_iff in H. rewrite split_slash_cons, H.
  destruct (split s "/") as [|h t]; eexists; eexists; split;
    try reflexivity; discriminate.
Qed.

(** *** The common leading segments *)

Lemma commonIndex_app (A E X : list string) :
  commonIndex (A ++ E) (A ++ X) = (List.length A + commonIndex E X)%nat.
Proof.
  induction A as [|a A IH]; [reflexivity|].
  simpl. now rewrite String.eqb_refl, IH.
Qed.

Lemma commonIndex_empty_segments (E : list string) (h : string) (t : list string) :
  Forall (fun e => e = EmptyString) E -> h <> EmptyString ->
  commonIndex E (h :: t) = O.
Proof.
  intros HF Hh. destruct E as [|e E]; [reflexivity|].
  inversion HF; subst. simpl.
  destruct h; [now elim Hh | reflexivity].
Qed.

Lemma skipn_length_app {A : Type} (l X : list A) :
  skipn (List.length l) (l ++ X) = X.
Proof. induction l; [reflexivity | assumption]. Qed.

(** The plain strategy on a path below the root gives what follows the
    root. *)
Lemma plainRelative_below (v : vars) (R tail : string) :
  leading_segment tail = true ->
  plainRelative v R (strip_trailing_slashes R ++ "/" ++ tail) = tail.
Proof.
  intro Hseg. unfold plainRelative. rewrite split_slash_append.
  destruct (split_strip_trailing R) as (E & -> & HF).
  destruct (split_leading_segment tail Hseg) as (h & t & Ht & Hh).
  rewrite commonIndex_app, Ht, (commonIndex_empty_segments E h t HF Hh).
  rewrite Nat.add_0_r, skipn_length_app, <- Ht.
  destruct (split (strip_trailing_slashes R) "/") as [|x l] eqn:S;
    [now apply split_slash_nonempty in S|].
  cbn [List.length Nat.ltb Nat.leb]. apply join_split_slash.
Qed.

Lemma leading_segment_append (a b : string) :
  leading_segment a = true -> leading_segment (a ++ b) = true.
Proof. destruct a; [discriminate | exact (fun H => H)]. Qed.

Lemma leading_segment_no_slash (a : string) :
  leading_segment a = true -> startsWith a "/" = false.
Proof.
  destruct a as [|c a]; [discriminate|]. cbn [leading_segment]. intro H.
  apply negb_true_iff in H. unfold startsWith. rewrite prefix_cons.
  unfold is_slash in H. now rewrite Ascii.eqb_sym, H.
Qed.

Lemma truthy_append_slash (a b : string) : truthy (a ++ "/" ++ b) = true.
Proof. destruct a; reflexivity. Qed.

(** C6, counterexample: with the root [/proj] and the document
    directory [/proj/src/proj], the returned path is
    [src/proj/index.html], in which the root [/proj] occurs. *)
Lemma getRelativePath_root_occurs_inside :
  getRelativePath Scenario.onDisk Scenario.nestedSession
    = Ok "src/proj/index.html" /\
  includes "src/proj/index.html" (strip_trailing_slashes "/proj") = true.
Proof. split; vm_compute; reflexivity. Qed.

Lemma strip_leading_no_slash (s : string) :
  truthy (strip_leading_slashes s) = true ->
  startsWith (strip_leading_slashes s) "/" = false.
Proof.
  induction s as [|c s IH]; [discriminate|].
  cbn [strip_leading_slashes]. destruct (is_slash c) eqn:C; [exact IH|].
  intros _. unfold startsWith. rewrite prefix_cons.
  unfold is_slash in C. now rewrite Ascii.eqb_sym, C.
Qed.

(** What the two strategies for content URIs return has no leading
    slash. *)
Lemma content_strategies_no_leading_slash (w : world) (rootFolder temp r : string) :
  termuxRelative rootFolder temp = Some r \/
  contentRelative w rootFolder temp = Some r ->
  startsWith r "/" = false.
Proof.
  unfold termuxRelative, contentRelative. intros [H|H];
    repeat match type of H with
           | (if ?b then _ else _) = Some _ =>
               let E := fresh "E" in destruct b eqn:E; [|discriminate]
           | match ?o with Some _ => _ | None => _ end = Some _ =>
               destruct o; [|discriminate]
           end;
    injection H as <-; now apply strip_leading_no_slash.
Qed.

(** C6, as amended: whenever one of the two strategies for content
    URIs answers, the returned path has no leading slash; and for plain
    paths, with a root [R] that occurs in the document directory [P] and
    [P] strictly below [R] once the trailing slashes of [R] are stripped,
    the resolution returns exactly what follows the root and its slash in
    [P/filename], a path with no leading slash (the text of [R] may
    occur again inside it). *)
Theorem getRelativePath_strips_root (w : world) (v : vars) :
  (forall rootFolder temp r : string,
     termuxRelative rootFolder temp = Some r \/
     contentRelative w rootFolder temp = Some r ->
     startsWith r "/" = false) /\
  (forall R P rest : string,
     addedFolder0 w = Some R ->
     pathName v = Some P ->
     termux_uri v = None ->
     strictly_below R P rest ->
     includes P R = true ->
     Url_join w P (filename v) = (P ++ "/" ++ filename v)%string ->
     plain_paths R P (P ++ "/" ++ filename v) = true ->
     getRelativePath w v = Ok (rest ++ "/" ++ filename v)%string /\
     startsWith (rest ++ "/" ++ filename v) "/" = false).
Proof.
  split; [apply content_strategies_no_leading_slash|].
  intros R P rest Hroot Hpath Htermux [HP Hseg] Hincl Hjoin Hplain.
  unfold plain_paths in Hplain.
  repeat (apply andb_true_iff in Hplain as [Hplain ?]).
  repeat match goal with H : negb _ = true |- _ => apply negb_true_iff in H end.
  split; [|now apply leading_segment_no_slash, leading_segment_append].
  unfold getRelativePath. rewrite Hpath.
  assert (Hinit : initialRoot w v P = R).
  { unfold initialRoot. rewrite Htermux, Hroot, Hincl.
    rewrite HP at 1. now rewrite truthy_append_slash. }
  rewrite Hinit. unfold makeUriAbsoluteIfNeeded. rewrite Hplain.
  match goal with H : includes R "?" = false |- _ => rewrite H end.
  match goal with H : includes P "?" = false |- _ => rewrite H end.
  rewrite !andb_false_r, Hjoin.
  unfold termuxRelative, contentRelative.
  match goal with H : includes _ "::" = false |- _ => rewrite H end.
  rewrite !andb_false_r. f_equal.
  rewrite HP, !append_assoc.
  change ("/" ++ rest ++ "/" ++ filename v)%string
    with ("/" ++ (rest ++ "/" ++ filename v))%string.
  apply plainRelative_below. now apply leading_segment_append.
Qed.

(** C6, witness: the root [/proj] and the document [/proj/src/index.html]. *)
Lemma getRelativePath_strips_root_witness :
  getRelativePath Scenario.onDisk Scenario.srcSession = Ok "src/index.html" /\
  startsWith "src/index.html" "/" = false.
Proof.
  apply (proj2 (getRelativePath_strips_root Scenario.onDisk Scenario.srcSession)
           "/proj" "/proj/src" "src");
    try reflexivity.
  split; reflexivity.
Defined.

End RelPathFacts.

(** ** Slices *)

Module SliceFacts.
Import JsString StringFacts Shape.

Lemma slice_to_from (n : nat) :
  forall s : string, s = (slice_to n s ++ slice_from n s)%string.
Proof.
  induction n as [|n IH]; intros [|c s]; try reflexivity.
  simpl. now rewrite <- IH.
Qed.

Lemma length_append (a b : string) :
  String.length (a ++ b) = (String.length a + String.length b)%nat.
Proof. induction a as [|c a IH]; simpl; [reflexivity | now rewrite IH]. Qed.

Lemma length_slice_from (n : nat) :
  forall s : string, String.length (slice_from n s) = (String.length s - n)%nat.
Proof. induction n as [|n IH]; intros [|c s]; simpl; auto with arith. Qed.

Lemma slice_from_append (a b : string) :
  slice_from (String.length a) (a ++ b) = b.
Proof. induction a as [|c a IH]; [reflexivity | exact IH]. Qed.

Lemma slice_to_append (a b : string) :
  slice_to (String.length a) (a ++ b) = a.
Proof.
  induction a as [|c a IH]; [now destruct b|]. simpl. now rewrite IH.
Qed.

Lemma slice_last_ending (a x : string) : slice_last (String.length x) (a ++ x) = x.
Proof.
  unfold slice_last. rewrite length_append.
  replace (String.length a + String.length x - String.length x)%nat
    with (String.length a) by lia.
  apply slice_from_append.
Qed.

Lemma slice_last_is_ending (i : nat) (s : string) : ending_of (slice_last i s) s.
Proof. eexists. unfold slice_last. apply slice_to_from. Qed.

Lemma slice_to_is_beginning (i : nat) (s : string) : beginning_of (slice_to i s) s.
Proof. eexists. apply slice_to_from. Qed.

Lemma length_slice_last (i : nat) (s : string) :
  (i <= String.length s)%nat -> String.length (slice_last i s) = i.
Proof. intro H. unfold slice_last. rewrite length_slice_from. lia. Qed.

Lemma append_cancel_l (a b c : string) : (a ++ b)%string = (a ++ c)%string -> b = c.
Proof. induction a as [|x a IH]; simpl; intro H; [exact H|]. injection H. exact IH. Qed.

End SliceFacts.

(** ** [findOverlap], [removePrefix] and the path looked up by [sendByExt] *)

Module OverlapFacts.
Import JsString Env Handler StringFacts Shape SliceFacts.

(** The loop of [findOverlap] after the lengths [1 .. k]. *)
Lemma findOverlap_loop (a b : string) (k : nat) :
  (k <= Nat.min (String.length a) (String.length b))%nat ->
  let acc :=
    fold_left
      (fun maxOverlap i =>
         if String.eqb (slice_last i a) (slice_to i b)
         then slice_last i a else maxOverlap)
      (seq 1 k) EmptyString in
  ending_of acc a /\ beginning_of acc b /\
  forall i : nat,
    (1 <= i <= k)%nat -> slice_last i a = slice_to i b ->
    (i <= String.length acc)%nat.
Proof.
  induction k as [|k IH]; intro Hk; cbv zeta.
  - simpl. split; [exists a; now rewrite append_empty|].
    split; [now exists b|]. intros i Hi. lia.
  - rewrite seq_S, fold_left_app. cbn [fold_left Nat.add].
    destruct (IH ltac:(lia)) as (He & Hb & Hmax). cbv zeta in He, Hb, Hmax.
    destruct (String.eqb_spec (slice_last (S k) a) (slice_to (S k) b)) as [E|N].
    + split; [apply slice_last_is_ending|].
      split; [rewrite E; apply slice_to_is_beginning|].
      intros i Hi _. rewrite length_slice_last by lia. lia.
    + split; [exact He|]. split; [exact Hb|].
      intros i Hi Hm. destruct (Nat.eq_dec i (S k)) as [->|Hne];
        [now elim N|]. apply Hmax; [lia | exact Hm].
Qed.

Lemma findOverlap_spec (a b : string) :
  ending_of (findOverlap a b) a /\
  beginning_of (findOverlap a b) b /\
  (forall x : string,
     ending_of x a -> beginning_of x b ->
     (String.length x <= String.length (findOverlap a b))%nat).
Proof.
  destruct (findOverlap_loop a b (Nat.min (String.length a) (String.length b))
              (Nat.le_refl _)) as (He & Hb & Hmax).
  cbv zeta in He, Hb, Hmax. fold (findOverlap a b) in He, Hb, Hmax.
  split; [exact He|]. split; [exact Hb|].
  intros x [front Hx] [back Hy].
  destruct (Nat.eq_dec (String.length x) 0) as [Z|NZ]; [lia|].
  pose proof (f_equal String.length Hx) as La.
  pose proof (f_equal String.length Hy) as Lb.
  rewrite length_append in La, Lb.
  apply Hmax; [lia|].
  transitivity x.
  - rewrite Hx. apply slice_last_ending.
  - rewrite Hy. symmetry. apply slice_to_append.
Qed.

(** X1: [findOverlap(a, b)] is an ending of [a] and a beginning of [b],
    and no longer text is both; with an empty [a] or [b] it is empty. *)
Theorem findOverlap_longest (a b : string) :
  ending_of (findOverlap a b) a /\
  beginning_of (findOverlap a b) b /\
  (forall x : string,
     ending_of x a -> beginning_of x b ->
     (String.length x <= String.length (findOverlap a b))%nat) /\
  findOverlap EmptyString b = EmptyString /\
  findOverlap a EmptyString = EmptyString.
Proof.
  destruct (findOverlap_spec a b) as (He & Hb & Hmax).
  repeat split; try assumption.
  unfold findOverlap. now rewrite Nat.min_0_r.
Qed.

Lemma removePrefix_beginning (o s : string) :
  beginning_of o s -> removePrefix s o = slice_from (String.length o) s.
Proof.
  intros [back ->]. unfold removePrefix, startsWith. now rewrite prefix_append.
Qed.

(** The segments of a path hold no slash, and a text without a slash
    is its own only segment. *)
Lemma split_slash_free (s : string) :
  Forall (fun part => includes part "/" = false) (split s "/").
Proof.
  induction s as [|c s IH]; [now repeat constructor|].
  rewrite RelPathFacts.split_slash_cons.
  destruct (is_slash c) eqn:C; [now constructor|].
  destruct (split s "/") as [|h t] eqn:E;
    [now apply RelPathFacts.split_slash_nonempty in E|].
  inversion IH as [|? ? Hh Ht]; subst. constructor; [|exact Ht].
  cbn [includes]. rewrite prefix_cons, Hh.
  unfold is_slash in C. rewrite Ascii.eqb_sym, C. reflexivity.
Qed.

Lemma split_no_slash (s : string) :
  includes s "/" = false -> split s "/" = [s].
Proof.
  induction s as [|c s IH]; [reflexivity|].
  cbn [includes]. rewrite prefix_cons. intro H.
  apply orb_false_iff in H as [H1 H2].
  replace (String.prefix EmptyString s) with true in H1 by (now destruct s).
  rewrite andb_true_r in H1.
  rewrite RelPathFacts.split_slash_cons. unfold is_slash.
  rewrite Ascii.eqb_sym, H1, (IH H2). reflexivity.
Qed.

Lemma last_part_slash_free (s : string) :
  includes (RelPath.last_part (split s "/")) "/" = false.
Proof.
  unfold RelPath.last_part.
  pose proof (split_slash_free s) as H.
  induction (split s "/") as [|x [|y l] IH]; [reflexivity| |].
  - now inversion H.
  - inversion H; subst. now apply IH.
Qed.

(** With a first segment that is not the name of the root folder, the
    path looked up is the root joined to the request without its longest
    beginning that is an ending of the root. *)
Lemma fullPathOf_other_segment (w : world) (P req : string) :
  hd EmptyString (split req "/") <> RelPath.last_part (split (rootFolderOf w P) "/") ->
  fullPathOf w P req =
    Url_join w (rootFolderOf w P)
      (slice_from (String.length (findOverlap (rootFolderOf w P) req)) req).
Proof.
  intro Hne. unfold fullPathOf.
  pose proof (RelPathFacts.join_split_slash req) as J.
  destruct (split req "/") as [|p0 rest] eqn:S;
    [now apply RelPathFacts.split_slash_nonempty in S|].
  cbn [hd] in Hne. apply String.eqb_neq in Hne. rewrite Hne, J.
  destruct (findOverlap_spec (rootFolderOf w P) req) as (_ & Hb & _).
  destruct (String.eqb_spec (findOverlap (rootFolderOf w P) req) EmptyString)
    as [E|N]; cbn [negb].
  - now rewrite E.
  - now rewrite (removePrefix_beginning _ _ Hb).
Qed.

(** X2: when the first segment of the request is not the name of the
    root folder, [sendByExt] looks up the root joined to the request
    without its longest beginning that is also an ending of the root;
    so when the root ends with the character the request begins with,
    that character is not part of the path looked up. *)
Theorem fullPathOf_drops_overlap (w : world) (P req : string) :
  hd EmptyString (split req "/") <> RelPath.last_part (split (rootFolderOf w P) "/") ->
  exists o rest : string,
    req = (o ++ rest)%string /\
    ending_of o (rootFolderOf w P) /\
    (forall x : string,
       ending_of x (rootFolderOf w P) -> beginning_of x req ->
       (String.length x <= String.length o)%nat) /\
    fullPathOf w P req = Url_join w (rootFolderOf w P) rest /\
    (forall (c : ascii) (front back : string),
       rootFolderOf w P = (front ++ String c EmptyString)%string ->
       req = String c back ->
       (String.length rest < String.length req)%nat).
Proof.
  intro Hne.
  destruct (findOverlap_spec (rootFolderOf w P) req) as (He & [back Hb] & Hmax).
  exists (findOverlap (rootFolderOf w P) req), back.
  split; [exact Hb|]. split; [exact He|]. split; [exact Hmax|]. split.
  - rewrite (fullPathOf_other_segment w P req Hne). f_equal.
    rewrite Hb at 2. apply slice_from_append.
  - intros c front back' HR Hreq.
    assert (L : (1 <= String.length (findOverlap (rootFolderOf w P) req))%nat).
    { apply (Hmax (String c EmptyString)); [now exists front|].
      exists back'. exact Hreq. }
    pose proof (f_equal String.length Hb) as Lb. rewrite length_append in Lb. lia.
Qed.

(** X2, witness: in the folder [/apps] the request [/src/index.html]
    is looked up as [/apps/rc/index.html]. *)
Lemma fullPathOf_drops_overlap_witness :
  exists o rest : string,
    "src/index.html" = (o ++ rest)%string /\
    fullPathOf (Scenario.worldOf (fun _ => Throw "unused") (fun _ => Throw "unused")
                  (fun _ => None) (Some "/apps")) "/apps/src" "src/index.html"
      = Sample.join_plain "/apps" rest /\
    (String.length rest < 14)%nat.
Proof.
  destruct (fullPathOf_drops_overlap
              (Scenario.worldOf (fun _ => Throw "unused") (fun _ => Throw "unused")
                 (fun _ => None) (Some "/apps")) "/apps/src" "src/index.html")
    as (o & rest & H1 & _ & _ & H4 & H5); [vm_compute; discriminate|].
  exists o, rest. split; [exact H1|]. split; [exact H4|].
  apply (H5 "s"%char "/app" "rc/index.html"); reflexivity.
Defined.

(** X3: a request whose first segment repeats the name of the root
    folder is looked up as the request without that segment. *)
Theorem fullPathOf_skips_root_name (w : world) (P tail : string) :
  let name := RelPath.last_part (split (rootFolderOf w P) "/") in
  hd EmptyString (split tail "/") <> name ->
  fullPathOf w P (name ++ "/" ++ tail) = fullPathOf w P tail.
Proof.
  cbv zeta. intro Hne.
  rewrite (fullPathOf_other_segment w P tail Hne).
  unfold fullPathOf. rewrite RelPathFacts.split_slash_append.
  rewrite (split_no_slash _ (last_part_slash_free (rootFolderOf w P))).
  cbn [app]. rewrite String.eqb_refl, RelPathFacts.join_split_slash.
  destruct (findOverlap_spec (rootFolderOf w P) tail) as (_ & Hb & _).
  destruct (String.eqb_spec (findOverlap (rootFolderOf w P) tail) EmptyString)
    as [E|N]; cbn [negb].
  - now rewrite E.
  - now rewrite (removePrefix_beginning _ _ Hb).
Qed.

(** X3, witness: in the folder [/proj], [/proj/css/site.css] and
    [/css/site.css] name the same file. *)
Lemma fullPathOf_skips_root_name_witness :
  fullPathOf Scenario.onDisk "/proj" "proj/css/site.css"
  = fullPathOf Scenario.onDisk "/proj" "css/site.css".
Proof.
  apply (fullPathOf_skips_root_name Scenario.onDisk "/proj" "css/site.css").
  vm_compute. discriminate.
Defined.

End OverlapFacts.

(** ** More on the path resolver *)

Module ResolverFacts.
Import JsString Env RelPath StringFacts Shape SliceFacts.

(** X4: [makeUriAbsoluteIfNeeded] leaves a uri alone unless it begins
    with the encoded Termux home, and what it returns it returns
    unchanged when applied again. *)
Theorem makeUriAbsoluteIfNeeded_idempotent (w : world) (u u' : string) :
  makeUriAbsoluteIfNeeded w u = Ok u' ->
  makeUriAbsoluteIfNeeded w u' = Ok u' /\
  (startsWith u termuxRootEncoded = false -> u' = u) /\
  (includes u "::" = true -> u' = u).
Proof.
  unfold makeUriAbsoluteIfNeeded.
  destruct (startsWith u termuxRootEncoded) eqn:T.
  - destruct (includes u "::") eqn:C.
    + intro H. injection H as <-. rewrite T, C. now repeat split.
    + destruct (decodeURIComponent w _) as [d|]; [|discriminate].
      intro H.
      assert (E : (termuxRootEncoded ++ "::" ++ d ++ "/")%string = u')
        by congruence.
      rewrite <- E. unfold startsWith. rewrite prefix_append.
      rewrite (includes_middle termuxRootEncoded "::" (d ++ "/")).
      repeat split; discriminate.
  - intro H. injection H as <-. rewrite T. now repeat split.
Qed.

(** X4, witness: the Termux home itself. *)
Lemma makeUriAbsoluteIfNeeded_idempotent_witness :
  makeUriAbsoluteIfNeeded Scenario.onDisk
    (termuxRootEncoded ++ "::%2Fdata%2Fdata%2Fcom.termux%2Ffiles%2Fhome/")
  = Ok (termuxRootEncoded ++ "::%2Fdata%2Fdata%2Fcom.termux%2Ffiles%2Fhome/")%string.
Proof.
  apply (makeUriAbsoluteIfNeeded_idempotent Scenario.onDisk termuxRootEncoded).
  reflexivity.
Defined.

Lemma commonIndex_self_prefix (A X : list string) :
  commonIndex A (A ++ X) = List.length A.
Proof.
  rewrite <- (app_nil_r A) at 1. rewrite RelPathFacts.commonIndex_app.
  simpl. lia.
Qed.

(** X5: a plain document whose directory is its own root (no opened
    folder holds it) is addressed by its bare filename. *)
Theorem getRelativePath_single_file (w : world) (v : vars) (P : string) :
  pathName v = Some P ->
  termux_uri v = None ->
  (forall url : string, addedFolder0 w = Some url -> includes P url = false) ->
  Url_join w P (filename v) = (P ++ "/" ++ filename v)%string ->
  plain_paths P P (P ++ "/" ++ filename v) = true ->
  getRelativePath w v = Ok (filename v).
Proof.
  intros Hpath Htermux Hfolder Hjoin Hplain.
  unfold plain_paths in Hplain.
  repeat (apply andb_true_iff in Hplain as [Hplain ?]).
  repeat match goal with H : negb _ = true |- _ => apply negb_true_iff in H end.
  unfold getRelativePath. rewrite Hpath.
  assert (Hinit : initialRoot w v P = P).
  { unfold initialRoot. rewrite Htermux.
    destruct (addedFolder0 w) as [url|] eqn:F; [|reflexivity].
    rewrite (Hfolder url eq_refl). now rewrite andb_false_r. }
  rewrite Hinit. unfold makeUriAbsoluteIfNeeded. rewrite Hplain.
  match goal with H : includes P "?" = false |- _ => rewrite H end.
  rewrite !andb_false_r, Hjoin.
  unfold termuxRelative, contentRelative.
  match goal with H : includes _ "::" = false |- _ => rewrite H end.
  rewrite !andb_false_r. f_equal.
  unfold plainRelative. rewrite RelPathFacts.split_slash_append.
  rewrite commonIndex_self_prefix, RelPathFacts.skipn_length_app.
  destruct (split P "/") as [|x l] eqn:S;
    [now apply RelPathFacts.split_slash_nonempty in S|].
  cbn [List.length Nat.ltb Nat.leb]. apply RelPathFacts.join_split_slash.
Qed.

(** X5, witness: [/docs/notes/index.html] with no folder opened. *)
Lemma getRelativePath_single_file_witness :
  getRelativePath
    (Scenario.worldOf (fun _ => Throw "unused") (fun _ => Throw "unused")
       (fun _ => None) None)
    (Scenario.sessionIn "/docs/notes") = Ok "index.html".
Proof.
  apply (getRelativePath_single_file _ (Scenario.sessionIn "/docs/notes")
           "/docs/notes"); try reflexivity.
  intros url H. discriminate H.
Defined.


End ResolverFacts.

(** ** The strategy for Termux documents *)

Module TermuxFacts.
Import JsString Env RelPath StringFacts Shape SliceFacts.

Lemma prefix_empty (s : string) : String.prefix EmptyString s = true.
Proof. now destruct s. Qed.

(** Splitting at the first [::]. *)
Lemma split_colons_at (b : string) :
  forall pre : string,
    includes (pre ++ ":") "::" = false ->
    split (pre ++ "::" ++ b) "::" = pre :: split b "::".
Proof.
  induction pre as [|c pre IH]; intro H.
  { change (EmptyString ++ "::" ++ b)%string with (String ":" (String ":" b)).
    unfold split. cbn [split_go].
    rewrite !prefix_cons, prefix_empty. reflexivity. }
  change (String c pre ++ ":")%string with (String c (pre ++ ":")) in H.
  cbn [includes] in H. apply orb_false_iff in H as [H1 H2].
  change (String c pre ++ "::" ++ b)%string with (String c (pre ++ "::" ++ b)).
  unfold split in *. cbn [split_go].
  assert (E : String.prefix "::" (String c (pre ++ "::" ++ b)) = false).
  { rewrite prefix_cons in H1 |- *.
    destruct (Ascii.eqb ":" c); [|reflexivity]. cbn [andb] in *.
    destruct pre as [|d pre]; [discriminate H1|].
    change (String d pre ++ ":")%string with (String d (pre ++ ":")) in H1.
    change (String d pre ++ "::" ++ b)%string with (String d (pre ++ "::" ++ b)).
    rewrite prefix_cons, prefix_empty in *. exact H1. }
  rewrite E, (IH H2). reflexivity.
Qed.

Lemma split_colons_none (b : string) :
  includes b "::" = false -> split b "::" = [b].
Proof.
  induction b as [|c b IH]; [reflexivity|].
  cbn [includes]. intro H. apply orb_false_iff in H as [H1 H2].
  unfold split in *. cbn [split_go]. rewrite H1, (IH H2). reflexivity.
Qed.

Lemma strip_leading_segment (rest : string) :
  leading_segment rest = true ->
  strip_leading_slashes ("/" ++ rest) = rest /\ truthy rest = true.
Proof.
  destruct rest as [|c rest]; [discriminate|]. cbn [leading_segment]. intro H.
  apply negb_true_iff in H. simpl. now rewrite H.
Qed.

(** What the Termux strategy returns for a real path below the root. *)
Lemma termuxRelative_below (rootFolder pre rest : string) :
  let real := (strip_trailing_slashes rootFolder ++ "/" ++ rest)%string in
  includes (pre ++ "::" ++ real) "com.termux.documents" = true ->
  includes (pre ++ ":") "::" = false ->
  includes real "::" = false ->
  leading_segment rest = true ->
  termuxRelative rootFolder (pre ++ "::" ++ real) = Some rest.
Proof.
  cbv zeta. intros Htermux Hpre Hreal Hseg. unfold termuxRelative.
  rewrite Htermux, (includes_middle pre "::" _). cbn [andb].
  rewrite (split_colons_at _ pre Hpre), (split_colons_none _ Hreal).
  cbn [nth_part nth_error]. unfold startsWith.
  rewrite prefix_append, slice_from_append.
  destruct (strip_leading_segment rest Hseg) as [-> ->]. reflexivity.
Qed.

(** X7: for a Termux document tree, the root is the decoded tree part
    of the active file's uri, and the document is addressed by what
    follows that root in the real path after [::]. *)
Theorem getRelativePath_termux (w : world) (v : vars)
    (P u captured root pre rest : string) :
  pathName v = Some P ->
  termux_uri v = Some u ->
  match_tree u = Some captured ->
  decodeURIComponent w captured = Some root ->
  startsWith root termuxRootEncoded = false ->
  includes root "?" = false ->
  includes P "?" = false ->
  Url_join w P (filename v)
    = (pre ++ "::" ++ strip_trailing_slashes root ++ "/" ++ rest)%string ->
  includes (pre ++ "::" ++ strip_trailing_slashes root ++ "/" ++ rest)
           "com.termux.documents" = true ->
  includes (pre ++ ":") "::" = false ->
  includes (strip_trailing_slashes root ++ "/" ++ rest) "::" = false ->
  leading_segment rest = true ->
  getRelativePath w v = Ok rest.
Proof.
  intros Hpath Hu Hm Hd HT Hq1 Hq2 Hjoin Htermux Hpre Hreal Hseg.
  unfold getRelativePath. rewrite Hpath.
  assert (Hinit : initialRoot w v P = root).
  { unfold initialRoot. now rewrite Hu, Hm, Hd. }
  rewrite Hinit. unfold makeUriAbsoluteIfNeeded. rewrite HT, Hq1, Hq2.
  rewrite !andb_false_r, Hjoin.
  now rewrite (termuxRelative_below root pre rest Htermux Hpre Hreal Hseg).
Qed.

(** X7, witness: [pages/index.html] in the Termux folder [~/site]. *)
Lemma getRelativePath_termux_witness :
  getRelativePath (Sample2.decodingWorld Sample2.percent_decode None)
    Sample2.termuxSession = Ok "pages/index.html".
Proof.
  apply (getRelativePath_termux
           (Sample2.decodingWorld Sample2.percent_decode None)
           Sample2.termuxSession Sample2.termuxDir
           (Sample2.termuxDir ++ "/index.html")
           "%2Fdata%2Fdata%2Fcom.termux%2Ffiles%2Fhome%2Fsite"
           "/data/data/com.termux/files/home/site"
           Sample2.termuxTree "pages/index.html");
    reflexivity.
Defined.


End TermuxFacts.

(** ** More on starting the server *)

Module ServerLogFacts.
Import JsString Http Server ServerLog.
Local Open Scope Z_scope.

Lemma held_after_app (l1 l2 : list action) :
  forall r : bool,
    held_after r (l1 ++ l2) = held_after (held_after r l1) l2.
Proof. induction l1 as [|[| | |] l1 IH]; intro r; simpl; auto. Qed.

Lemma one_handle_at_a_time_app (l1 l2 : list action) :
  forall r : bool,
    one_handle_at_a_time r (l1 ++ l2)
    = one_handle_at_a_time r l1 && one_handle_at_a_time (held_after r l1) l2.
Proof.
  induction l1 as [|[| | |] l1 IH]; intro r; simpl; auto.
  - rewrite IH. now rewrite andb_assoc.
  - rewrite IH. now rewrite andb_assoc.
Qed.

Lemma createServer_in_order (s : server) :
  in_order s -> in_order (createServer s) /\ has_handle (createServer s) = true.
Proof.
  intros [H1 H2]. unfold createServer, in_order, has_handle in *.
  destruct (webServer s); simpl;
    rewrite ?one_handle_at_a_time_app, ?held_after_app, ?H1, ?H2; simpl;
    rewrite ?one_handle_at_a_time_app, ?held_after_app, ?H1, ?H2; simpl; auto.
Qed.

Lemma log_in_order (a : action) (s : server) :
  (a = Alert \/ exists p, a = OpenBrowser p) ->
  in_order s -> in_order (log a s).
Proof.
  intros Ha [H1 H2]. unfold in_order, log, has_handle in *. simpl.
  rewrite one_handle_at_a_time_app, held_after_app, H1, H2.
  destruct Ha as [->|[p ->]]; simpl; auto.
Qed.

Lemma next_port_in_order (s : server) : in_order s -> in_order (next_port s).
Proof. exact (fun H => H). Qed.

Lemma start_in_order (target : string) (answers : list attempt) :
  forall s : server, in_order s -> in_order (start target answers s).
Proof.
  induction answers as [|a rest IH]; intros s Hs; cbn [start].
  - destruct (String.eqb target "browser"); [exact Hs|].
    now apply createServer_in_order.
  - destruct (String.eqb target "browser" && _).
    + apply log_in_order; [now left | exact Hs].
    + destruct (createServer_in_order s Hs) as [Hc _].
      destruct (bound a) as [|err].
      * apply log_in_order; [right; eauto | exact Hc].
      * unfold onError. destruct (String.eqb err "Server already running").
        -- apply log_in_order; [right; eauto | exact Hc].
        -- apply IH. now apply next_port_in_order.
Qed.

(** X8: whatever the transport answers, [start()] never holds two
    handles: in the log of a run that begins with no handle, every
    [CreateServer] after the first comes after a [stop()] on the handle
    created before it, whether or not that handle's bind had succeeded;
    [stop()] is only called on a handle that is held; and [webServer] is
    set at the end exactly when the log ends with a handle created and
    not stopped. *)
Theorem start_holds_one_handle (target : string) (answers : list attempt) (p : Z) :
  let s := start target answers (fresh p) in
  one_handle_at_a_time false (actions s) = true /\
  held_after false (actions s) = has_handle s.
Proof. apply start_in_order. split; reflexivity. Qed.

Lemma opened_log (a : action) (s : server) :
  opened (log a s)
  = (opened s ++ match a with OpenBrowser p => [p] | _ => [] end)%list.
Proof.
  unfold opened, log. simpl. rewrite flat_map_app. simpl. now rewrite app_nil_r.
Qed.

Lemma opened_createServer (s : server) : opened (createServer s) = opened s.
Proof.
  unfold createServer, opened. destruct (webServer s); simpl;
    rewrite ?flat_map_app; simpl; rewrite ?flat_map_app; simpl;
    now rewrite ?app_nil_r.
Qed.

(** X9: one call of [start()] opens the browser at most once, and when
    it does, it is on the final port, which is the port of the server
    created last; ports only go up. *)
Theorem start_opens_browser_once (target : string) (answers : list attempt) :
  forall s : server,
    let s' := start target answers s in
    port s <= port s' /\
    (opened s' = opened s \/
     (opened s' = (opened s ++ [port s'])%list /\ webServer s' = Some (port s'))).
Proof.
  induction answers as [|a rest IH]; intro s; cbv zeta; cbn [start].
  - destruct (String.eqb target "browser").
    + split; [lia | now left].
    + rewrite ServerFacts.port_createServer, opened_createServer.
      split; [lia | now left].
  - destruct (String.eqb target "browser" && _).
    + rewrite opened_log, app_nil_r. unfold log. cbn [port].
      split; [lia | now left].
    + destruct (bound a) as [|err].
      * unfold openBrowser. rewrite opened_log, opened_createServer.
        unfold log. cbn [port webServer].
        rewrite ServerFacts.port_createServer, ServerFacts.webServer_createServer.
        split; [lia | now right].
      * unfold onError. destruct (String.eqb err "Server already running").
        -- unfold openBrowser. rewrite opened_log, opened_createServer.
           unfold log. cbn [port webServer].
           rewrite ServerFacts.port_createServer,
             ServerFacts.webServer_createServer.
           split; [lia | now right].
        -- destruct (IH (next_port (createServer s))) as [H1 H2].
           cbv zeta in H1, H2.
           replace (opened (next_port (createServer s))) with (opened s) in H2
             by (symmetry; apply opened_createServer).
           replace (port (next_port (createServer s))) with (port s + 1) in H1
             by (unfold next_port; cbn [port];
                 now rewrite ServerFacts.port_createServer).
           split; [lia | exact H2].
Qed.

End ServerLogFacts.

(** ** More on the fetch serializer *)

Module FetchCountFacts.
Import JsString Http Fetch FetchCount.

Lemma times_app (x : string) (l1 l2 : list string) :
  times x (l1 ++ l2) = (times x l1 + times x l2)%nat.
Proof. apply count_occ_app. Qed.

Lemma tally_set_queue (x : string) (s : session) (q : list request) (r : request) :
  queue s = q ++ [r] ->
  tally x s = (tally x (set_queue q s) + times x [req_id r])%nat.
Proof.
  intro H. unfold tally, set_queue. cbn [sent queue reading].
  rewrite H, map_app, times_app. cbn [map]. lia.
Qed.

Lemma remove_nth_times (x : string) (l : list request) :
  forall (i : nat) (r : request),
    nth_error l i = Some r ->
    times x (map req_id l)
    = (times x (map req_id (remove_nth i l)) + times x [req_id r])%nat.
Proof.
  induction l as [|y l IH]; intros [|i] r H; try discriminate.
  - injection H as ->. cbn [remove_nth map].
    change (req_id r :: map req_id l) with ([req_id r] ++ map req_id l).
    rewrite times_app. lia.
  - cbn [remove_nth map nth_error] in *.
    change (req_id y :: map req_id l) with ([req_id y] ++ map req_id l).
    change (req_id y :: map req_id (remove_nth i l))
      with ([req_id y] ++ map req_id (remove_nth i l)).
    rewrite !times_app, (IH i r H). lia.
Qed.

Lemma tally_resume (x : string) (s : session) (i : nat) (r : request) :
  nth_error (reading s) i = Some r ->
  tally x s = (tally x (resume i s) + times x [req_id r])%nat.
Proof.
  intro H. unfold tally, resume. cbn [sent queue reading].
  rewrite (remove_nth_times x (reading s) i r H). lia.
Qed.

Lemma tally_send (x : string) (s : session) (a : response) :
  tally x (send a s) = (tally x s + times x [response_id a])%nat.
Proof.
  unfold tally, send. cbn [sent queue reading].
  rewrite map_app, times_app. cbn [map]. lia.
Qed.

Section WithCollaborators.
Variable getProtocol : string -> string.
Variable extname : string -> string.
Variable Url_join : string -> string -> string.
Variable lookup : string -> option string.
Variable hashCode : string -> string.
Variable CACHE_STORAGE : string.

Local Abbreviation sendFile := (sendFile getProtocol extname lookup).
Local Abbreviation sendFile_with := (sendFile_with getProtocol extname lookup).
Local Abbreviation run_queued := (run_queued getProtocol extname lookup).
Local Abbreviation next_action := (next_action getProtocol extname lookup).
Local Abbreviation serve := (serve extname lookup).
Local Abbreviation settle :=
  (settle getProtocol extname Url_join lookup hashCode CACHE_STORAGE).
Local Abbreviation step :=
  (step getProtocol extname Url_join lookup hashCode CACHE_STORAGE).
Local Abbreviation run :=
  (run getProtocol extname Url_join lookup hashCode CACHE_STORAGE).

Lemma tally_serve (x : string) (s : session) (r : request) (p : string) :
  tally x (serve r p s) = (tally x s + times x [req_id r])%nat.
Proof. unfold Fetch.serve. apply (tally_send x s). Qed.

Lemma tally_sendFile_with (x : string) (k : session -> session)
    (s : session) (r : request) :
  (forall t : session, tally x (k t) = tally x t) ->
  tally x (sendFile_with k s r) = (tally x s + times x [req_id r])%nat.
Proof.
  intro Hk. unfold Fetch.sendFile_with. destruct (isLoading s).
  - unfold tally, push, set_queue. cbn [sent queue reading].
    rewrite map_app, times_app. cbn [map]. lia.
  - destruct (scheme_of getProtocol r);
      try (unfold tally, suspend, set_loading; cbn [sent queue reading];
           rewrite map_app, times_app; cbn [map]; lia).
    rewrite Hk. apply (tally_serve x (set_loading true s)).
Qed.

Lemma tally_run_queued (x : string) (n : nat) :
  forall s : session, tally x (run_queued n s) = tally x s.
Proof.
  induction n as [|n IH]; intro s; [reflexivity|].
  cbn [Fetch.run_queued].
  destruct (splice_last (queue s)) as [q [r|]] eqn:E; [|reflexivity].
  apply FetchFacts.splice_last_shorter in E.
  rewrite (tally_sendFile_with x _ _ r IH).
  symmetry. now apply tally_set_queue.
Qed.

Lemma tally_settle (x : string) (i : nat) (o : settled string) (s : session) :
  (tally x (settle i o s) <= tally x s)%nat.
Proof.
  unfold Fetch.settle.
  destruct (nth_error (reading s) i) as [r|] eqn:E; [|lia].
  rewrite (tally_resume x s i r E).
  destruct (scheme_of getProtocol r), o;
    unfold Fetch.next_action;
    rewrite ?tally_run_queued, ?tally_serve;
    try lia.
  change (tally x (set_loading false (send (Status404 (req_id r)) (resume i s))))
    with (tally x (send (Status404 (req_id r)) (resume i s))).
  rewrite tally_send. cbn [response_id]. lia.
Qed.

Lemma tally_run (x : string) (es : list event) :
  forall s : session,
    (tally x (run s es) <= tally x s + times x (map req_id (called es)))%nat.
Proof.
  induction es as [|e es IH]; intro s; [simpl; lia|].
  cbn [Fetch.run fold_left]. fold (run (step s e) es).
  specialize (IH (step s e)). destruct e as [r|i o]; cbn [Fetch.step] in *.
  - unfold Fetch.sendFile in *.
    rewrite (tally_sendFile_with x next_action s r
               (fun t => tally_run_queued x _ t)) in IH.
    change (called (Call r :: es)) with (r :: called es). cbn [map].
    change (req_id r :: map req_id (called es))
      with ([req_id r] ++ map req_id (called es)).
    rewrite times_app. lia.
  - pose proof (tally_settle x i o s).
    change (called (Settle i o :: es)) with (called es). lia.
Qed.

(** X10: nothing is answered that was not asked, and nothing is
    answered twice: for every id, the responses sent with that id,
    together with the requests with that id still queued or reading,
    never outnumber the calls of [sendFile] made with it. *)
Theorem sendFile_answers_at_most_once (es : list event) (x : string) :
  let s := run initial es in
  (times x (map response_id (sent s))
   + times x (map req_id (queue s))
   + times x (map req_id (reading s))
   <= times x (map req_id (called es)))%nat.
Proof. cbv zeta. apply (tally_run x es initial). Qed.

(** With the flag set and no read in flight, calls are only queued and
    settling promises change nothing. *)
Lemma run_wedged (es : list event) :
  forall s : session,
    isLoading s = true -> reading s = [] ->
    run s es =
      {| isLoading := true; queue := queue s ++ called es; reading := [];
         sent := sent s |}.
Proof.
  induction es as [|e es IH]; intros s Hl Hr.
  - simpl. rewrite app_nil_r. destruct s; simpl in *; now subst.
  - cbn [Fetch.run fold_left]. fold (run (step s e) es).
    destruct e as [r|i o]; cbn [Fetch.step called flat_map].
    + unfold Fetch.sendFile, Fetch.sendFile_with. rewrite Hl.
      rewrite IH by assumption. cbn [push set_queue queue sent].
      now rewrite <- app_assoc.
    + unfold Fetch.settle. rewrite Hr. destruct i; cbn [nth_error];
        now rewrite IH.
Qed.

(** X11: only the ftp read is guarded.  When the awaited promise of a
    [content:] path, or of any other path that is neither ftp nor
    [file:], rejects, the call ends without a response and with
    [isLoading] still set: from then on nothing is ever sent again, every
    later call is only queued. *)
Theorem sendFile_unguarded_rejection_wedges
    (es0 : list event) (a : request) (reason : string) (es : list event) :
  let s := run initial es0 in
  reading s = [a] ->
  scheme_of getProtocol a = ContentUri \/ scheme_of getProtocol a = OtherScheme ->
  run s (Settle 0 (Rejected reason) :: es) =
    {| isLoading := true; queue := queue s ++ called es; reading := [];
       sent := sent s |}.
Proof.
  cbv zeta. intros Hr Ha.
  destruct (FetchFacts.run_one_read getProtocol extname Url_join lookup hashCode
              CACHE_STORAGE es0 initial FetchFacts.initial_one_read) as [_ Hl].
  specialize (Hl ltac:(rewrite Hr; discriminate)).
  cbn [Fetch.run fold_left Fetch.step].
  fold (run (settle 0 (Rejected reason) (run initial es0)) es).
  assert (E : settle 0 (Rejected reason) (run initial es0)
              = resume 0 (run initial es0)).
  { unfold Fetch.settle. rewrite Hr. cbn [nth_error].
    destruct Ha as [-> | ->]; reflexivity. }
  rewrite E, run_wedged.
  - reflexivity.
  - exact Hl.
  - unfold resume. cbn [reading]. now rewrite Hr.
Qed.

End WithCollaborators.

(** X11, witness: the read of a storage-access-framework file is
    refused, then two more requests arrive. *)
Lemma sendFile_unguarded_rejection_wedges_witness :
  Sample.fetch_run initial
    [Call Sample.reqSaf; Settle 0 (Rejected "denied");
     Call Sample.reqA; Call Sample.reqB]
  = {| isLoading := true; queue := [Sample.reqA; Sample.reqB]; reading := [];
       sent := [] |}.
Proof.
  apply (sendFile_unguarded_rejection_wedges Sample.protocol_of
           Sample.extname_of Sample.join_plain Sample.lookup_of Sample.hash_of
           "/cache" [Call Sample.reqSaf] Sample.reqSaf "denied"
           [Call Sample.reqA; Call Sample.reqB]);
    [reflexivity | left; reflexivity].
Defined.

End FetchCountFacts.

(** ** More on the request handler *)

Module RoutingFacts.
Import JsString Http Env Handler Console StringFacts Shape SliceFacts.

Lemma names_a_path_taken (rest : string) :
  names_a_path rest = true ->
  negb (truthy rest) || (endsWith rest "/" && (String.length rest =? 1)%nat) = false.
Proof.
  unfold names_a_path. intro H. apply andb_true_iff in H as [Ht Hs].
  rewrite Ht. cbn [negb orb]. apply negb_true_iff in Hs.
  destruct rest as [|c [|d rest]]; [discriminate| |].
  - unfold endsWith, slice_last. simpl. simpl in Hs. now rewrite Hs.
  - simpl String.length. now rewrite andb_false_r.
Qed.

Lemma handleRequest_ordinary (w : world) (v : vars) (rest reqId : string) (h : hstate) :
  names_a_path rest = true -> ordinary v rest = true ->
  handleRequest w v rest reqId h = sendByExt w v (Url_extname w rest) rest reqId h.
Proof.
  intros Hp Ho. unfold handleRequest, bind.
  rewrite (names_a_path_taken rest Hp). unfold ret.
  unfold ordinary in Ho. apply andb_true_iff in Ho as [Ho H3].
  apply andb_true_iff in Ho as [H1 H2].
  apply negb_true_iff in H1, H2, H3. now rewrite H1, H2, H3.
Qed.

(** X12: outside console mode, for a file opened on its own (mode
    "single"), a request whose path is neither empty nor [/] and is none
    of the three synthetic endpoints is answered without consulting the
    file system: the exact name of the active file gets the text of the
    editor, with the looked-up content type ([text/html] when the lookup
    gives none), and every other path gets a 404. *)
Theorem handleRequest_single_file (w : world) (v : vars) (af : EditorFile)
    (rest reqId : string) (h : hstate) :
  isConsole v = false ->
  activeFile v = Some af ->
  mode af = "single" ->
  names_a_path rest = true ->
  ordinary v rest = true ->
  handleRequest w v rest reqId h =
    if String.eqb (filename v) rest
    then answered h (Status200Body reqId (getValue af)
                       match lookup w (filename v) with
                       | Some m => if truthy m then m else "text/html"
                       | None => "text/html"
                       end)
    else answered h (Status404 reqId).
Proof.
  intros Hc Ha Hm Hp Ho. rewrite (handleRequest_ordinary w v rest reqId h Hp Ho).
  unfold sendByExt. rewrite Hc, Ha, Hm. cbn [andb].
  replace (String.eqb "single" "single") with true by reflexivity.
  destruct (String.eqb (filename v) rest); reflexivity.
Qed.

(** X12, witness: the note is served from the editor although the file
    system cannot be reached, and its neighbour is not found. *)
Lemma handleRequest_single_file_witness :
  handleRequest offline singleSession "notes.txt" "1" start_state
    = answered start_state (Status200Body "1" "remember the milk" "text/plain") /\
  handleRequest offline singleSession "other.txt" "2" start_state
    = answered start_state (Status404 "2").
Proof.
  split.
  - exact (handleRequest_single_file offline singleSession
             singleFile "notes.txt" "1" start_state
             eq_refl eq_refl eq_refl eq_refl eq_refl).
  - exact (handleRequest_single_file offline singleSession
             singleFile "other.txt" "2" start_state
             eq_refl eq_refl eq_refl eq_refl eq_refl).
Defined.

Lemma last_char_append (u t : string) :
  t <> EmptyString -> last_char (u ++ t) = last_char t.
Proof.
  intro Ht. induction u as [|c u IH]; [reflexivity|].
  change (String c u ++ t)%string with (String c (u ++ t)). cbn [last_char].
  destruct (u ++ t)%string eqn:E; [|exact IH].
  destruct u; [now elim Ht | discriminate].
Qed.

Lemma console_html_ordinary (v : vars) :
  String.eqb "console.html" (CONSOLE_SCRIPT v) = false /\
  String.eqb "console.html" (MARKDOWN_STYLE v) = false.
Proof.
  split; apply String.eqb_neq; intro E; apply (f_equal last_char) in E;
    unfold CONSOLE_SCRIPT, MARKDOWN_STYLE in E;
    rewrite last_char_append in E by discriminate; discriminate.
Qed.

(** X13: after [startConsole()] for a script that is not yet in console
    mode, the request for the name of the active file is answered with
    the text of the editor as JavaScript, and the request for
    [console.html] with the console page; neither depends on the file
    system.  The server is started on the console port. *)
Theorem startConsole_serves_script (w : world) (CONSOLE_PORT : Z)
    (v : vars) (s : Server.server) (af : EditorFile) :
  isConsole v = false ->
  activeFile v = Some af ->
  names_a_path (file_filename af) = true ->
  String.eqb (file_filename af) (CONSOLE_SCRIPT v) = false ->
  String.eqb "console.html" (file_filename af) = false ->
  exists v' : vars,
    (forall answers : list Server.attempt,
       startConsole w CONSOLE_PORT answers v s
       = Ok (v', Server.start "inapp" answers
                   {| Server.port := CONSOLE_PORT;
                      Server.webServer := Server.webServer s;
                      Server.actions := Server.actions s |})) /\
    (forall (reqId : string) (h : hstate),
       handleRequest w v' (file_filename af) reqId h
       = answered h (Status200Body reqId (getValue af) "application/javascript")) /\
    (forall (reqId : string) (h : hstate),
       handleRequest w v' "console.html" reqId h
       = answered h (Status200Body reqId (console_page w)
                       (if truthy (MIMETYPE_HTML w) then MIMETYPE_HTML w
                        else "text/html"))).
Proof.
  intros Hc Ha Hp Hn Hk.
  eexists. split; [|split].
  - intro answers. unfold startConsole. rewrite Hc, Ha. reflexivity.
  - intros reqId h. unfold handleRequest, bind.
    rewrite (names_a_path_taken _ Hp). unfold ret.
    unfold CONSOLE_SCRIPT in *. cbn [uuid EXECUTING_SCRIPT activeFile].
    rewrite Hn, String.eqb_refl, ?Ha. reflexivity.
  - intros reqId h.
    destruct (console_html_ordinary v) as [H1 H2].
    unfold handleRequest, bind, ret.
    replace (negb (truthy "console.html")
             || endsWith "console.html" "/"
                && (String.length "console.html" =? 1)%nat) with false
      by reflexivity.
    cbv beta iota.
    unfold CONSOLE_SCRIPT, MARKDOWN_STYLE in *.
    cbn [uuid EXECUTING_SCRIPT].
    rewrite H1, Hk, H2. unfold sendByExt. cbn [isConsole andb].
    replace (String.eqb "console.html" "console.html") with true by reflexivity.
    reflexivity.
Qed.

(** X13, witness: running [main.js]. *)
Lemma startConsole_serves_script_witness :
  exists v' : vars,
    startConsole offline 8159 [] scriptSession (Server.fresh 8158)
    = Ok (v', Server.start "inapp" []
                {| Server.port := 8159; Server.webServer := None;
                   Server.actions := [] |}) /\
    handleRequest offline v' "main.js" "1" start_state
    = answered start_state
        (Status200Body "1" "console.log(1)" "application/javascript").
Proof.
  destruct (startConsole_serves_script offline 8159 scriptSession
              (Server.fresh 8158) scriptFile)
    as (v' & H1 & H2 & _); try reflexivity.
  exists v'. split; [exact (H1 []) | exact (H2 "1" start_state)].
Defined.



End RoutingFacts.

(** ** More on the instrumentation of HTML *)

Module InjectFacts.
Import JsString Http Env Handler Inject StringFacts Shape SliceFacts.

Lemma concat_cons (sep x : string) (l : list string) :
  l <> [] -> String.concat sep (x :: l) = (x ++ sep ++ String.concat sep l)%string.
Proof. destruct l; [now intros [] | reflexivity]. Qed.

Lemma split_go_nonempty (sep : string) (s : string) :
  forall k : nat, split_go sep k s <> [].
Proof.
  induction s as [|c s IH]; intro k; [discriminate|].
  cbn [split_go]. destruct k; [|apply IH].
  destruct (String.prefix sep (String c s)); [discriminate|].
  destruct (split_go sep 0 s); discriminate.
Qed.

(** Joining the pieces of a split gives the text back. *)
Lemma join_split_go (sep : string) :
  (1 <= String.length sep)%nat ->
  forall (s : string) (k : nat),
    join (split_go sep k s) sep = slice_from k s.
Proof.
  intro Hsep. unfold join.
  induction s as [|c s IH]; intro k; [now destruct k|].
  cbn [split_go]. destruct k as [|k]; [|apply IH].
  destruct (String.prefix sep (String c s)) eqn:P.
  - rewrite concat_cons by apply split_go_nonempty. rewrite IH.
    cbn [slice_from append].
    etransitivity; [|symmetry; apply (prefix_split sep (String c s) P)].
    f_equal. destruct (String.length sep) as [|n] eqn:L; [lia|].
    cbn [slice_from]. f_equal. lia.
  - specialize (IH 0%nat). cbn [slice_from] in *.
    destruct (split_go sep 0 s) as [|h t] eqn:E;
      [now apply split_go_nonempty in E|].
    rewrite <- IH. destruct t; reflexivity.
Qed.

Lemma split_two (s sep p0 p1 : string) :
  (1 <= String.length sep)%nat ->
  split s sep = [p0; p1] -> s = (p0 ++ sep ++ p1)%string.
Proof.
  intros Hsep H. pose proof (join_split_go sep Hsep s 0) as J.
  unfold split in H. rewrite H in J. cbn [slice_from] in J. now rewrite <- J.
Qed.

Lemma replace_first_split (pat rep : string) :
  forall s : string,
    includes s pat = true ->
    exists a b : string,
      s = (a ++ pat ++ b)%string /\
      replace_first pat rep s = (a ++ rep ++ b)%string.
Proof.
  induction s as [|c s IH]; intro H.
  - cbn [includes] in H. rewrite orb_false_r in H.
    exists EmptyString, (slice_from (String.length pat) EmptyString).
    cbn [replace_first]. rewrite H. split; [|reflexivity].
    now apply prefix_split.
  - cbn [includes] in H. cbn [replace_first].
    destruct (String.prefix pat (String c s)) eqn:P.
    + exists EmptyString, (slice_from (String.length pat) (String c s)).
      split; [now apply prefix_split | reflexivity].
    + simpl in H. destruct (IH H) as (a & b & E1 & E2).
      exists (String c a), b. split; [now rewrite E1 at 1 | now rewrite E2].
Qed.

Lemma replace_first_absent (pat rep : string) :
  forall s : string,
    includes s pat = false -> replace_first pat rep s = s.
Proof.
  induction s as [|c s IH]; intro H; cbn [includes] in H;
    apply orb_false_iff in H as [H1 H2]; cbn [replace_first]; rewrite H1;
    [reflexivity | now rewrite (IH H2)].
Qed.

(** X15: instrumenting only inserts.  The text that is sent is the
    text with its script tags normalized, with one piece put in at one
    place and nothing removed; the piece holds the injected block
    whenever the text has [<html>] in lower case or no html tag at all,
    and is empty only when no lower-case [<html>] is there to take it. *)
Theorem instrument_only_inserts (w : world) (v : vars) (text0 : string) :
  exists before inserted after : string,
    normalized text0 = (before ++ after)%string /\
    instrument w v text0 = (before ++ inserted ++ after)%string /\
    (includes inserted (injected w v) = true \/
     (inserted = EmptyString /\ includes (normalized text0) "<html>" = false)) /\
    (includes (normalized text0) "<html>" = true \/
     includes (toLowerCase (normalized text0)) "<html>" = false ->
     includes inserted (injected w v) = true).
Proof.
  unfold instrument. fold (normalized text0). set (text := normalized text0).
  assert (Hprepend :
    exists before inserted after : string,
      text = (before ++ after)%string /\
      ("<head>" ++ injected w v ++ "</head>" ++ text)%string
        = (before ++ inserted ++ after)%string /\
      includes inserted (injected w v) = true).
  { exists EmptyString, ("<head>" ++ injected w v ++ "</head>")%string, text.
    split; [reflexivity|]. split.
    - cbn [append]. now rewrite !append_assoc.
    - apply includes_middle. }
  assert (Hhtml :
    includes (toLowerCase text) "<html>" = true ->
    exists before inserted after : string,
      text = (before ++ after)%string /\
      replace_first "<html>" ("<html><head>" ++ injected w v ++ "</head>") text
        = (before ++ inserted ++ after)%string /\
      (includes inserted (injected w v) = true \/
       (inserted = EmptyString /\ includes text "<html>" = false)) /\
      (includes text "<html>" = true -> includes inserted (injected w v) = true)).
  { intros _. destruct (includes text "<html>") eqn:I.
    - destruct (replace_first_split "<html>"
                  ("<html><head>" ++ injected w v ++ "</head>") text I)
        as (a & b & E1 & E2).
      exists (a ++ "<html>")%string, ("<head>" ++ injected w v ++ "</head>")%string, b.
      split; [now rewrite append_assoc|]. split.
      + rewrite E2. now rewrite !append_assoc.
      + split; [left|intros _]; apply includes_middle.
    - exists text, EmptyString, EmptyString.
      rewrite (replace_first_absent _ _ text I). cbn [append].
      rewrite !append_empty.
      split; [reflexivity|]. split; [reflexivity|].
      split; [now right | discriminate]. }
  destruct (split text "<head>") as [|p0 [|p1 [|p2 l]]] eqn:E.
  1,2,4:
    destruct (includes (toLowerCase text) "<html>") eqn:L;
    [ destruct (Hhtml eq_refl) as (b & i & a & H1 & H2 & H3 & H4);
      exists b, i, a; split; [exact H1|]; split; [exact H2|];
      split; [exact H3|]; intros [H|H]; [now apply H4 | discriminate]
    | destruct Hprepend as (b & i & a & H1 & H2 & H3);
      exists b, i, a; split; [exact H1|]; split; [exact H2|];
      split; [now left | intros _; exact H3] ].
  exists (p0 ++ "<head>")%string, (injected w v), p1.
  rewrite (split_two text "<head>" p0 p1 ltac:(simpl; lia) E).
  rewrite !append_assoc.
  assert (Hin : includes (injected w v) (injected w v) = true).
  { apply includes_prefix. rewrite <- (append_empty (injected w v)) at 2.
    apply prefix_append. }
  split; [reflexivity|]. split; [reflexivity|].
  split; [now left | intros _; exact Hin].
Qed.

(** X15, witness: a page with a lower-case [<html>] and no head. *)
Lemma instrument_only_inserts_witness :
  exists before inserted after : string,
    normalized "<html><body></body></html>" = (before ++ after)%string /\
    instrument Scenario.onDisk Scenario.folderSession "<html><body></body></html>"
      = (before ++ inserted ++ after)%string /\
    includes inserted (injected Scenario.onDisk Scenario.folderSession) = true.
Proof.
  destruct (instrument_only_inserts Scenario.onDisk Scenario.folderSession
              "<html><body></body></html>")
    as (b & i & a & H1 & H2 & _ & H4).
  exists b, i, a. split; [exact H1|]. split; [exact H2|].
  apply H4. left. reflexivity.
Defined.

End InjectFacts.

(** ** More on heading slugs *)

Module SlugShapeFacts.
Import JsString Slug SlugShape StringFacts.

Lemma hyphenate_well_formed (u : string) :
  forall b : bool, well_formed b (hyphenate b u) = true.
Proof.
  induction u as [|c u IH]; intro b; [reflexivity|].
  cbn [hyphenate]. destruct (is_alnum c) eqn:C.
  - cbn [well_formed]. rewrite C. apply IH.
  - destruct b; [apply IH|]. cbn [well_formed].
    replace (is_alnum "-") with false by reflexivity.
    rewrite Ascii.eqb_refl. cbn [negb andb]. apply IH.
Qed.

Lemma hyphenate_fixed (t : string) :
  forall b : bool, well_formed b t = true -> hyphenate b t = t.
Proof.
  induction t as [|c t IH]; intros b H; [reflexivity|].
  cbn [well_formed hyphenate] in *. destruct (is_alnum c).
  - now rewrite (IH false H).
  - apply andb_true_iff in H as [H H3]. apply andb_true_iff in H as [H1 H2].
    apply negb_true_iff in H2. subst b.
    apply Ascii.eqb_eq in H1. subst c. now rewrite (IH true H3).
Qed.

Lemma alnum_plain (c : ascii) :
  is_alnum c = true -> is_upper c = false /\ is_space c = false.
Proof.
  unfold is_alnum, is_upper, is_space. cbv zeta.
  generalize (nat_of_ascii c). intros n H.
  apply orb_true_iff in H as [H|H]; apply andb_true_iff in H as [H1 H2];
    apply Nat.leb_le in H1, H2; split;
    repeat match goal with
           | |- (_ && _)%bool = false => apply andb_false_iff
           | |- (_ || _)%bool = false => apply orb_false_iff; split
           end;
    try (right; apply Nat.leb_gt; lia);
    try (left; apply Nat.leb_gt; lia);
    try (apply Nat.eqb_neq; lia).
Qed.

Lemma well_formed_plain (t : string) :
  forall b : bool,
    well_formed b t = true ->
    toLowerCase t = t /\ trimStart t = t /\ trimEnd t = t.
Proof.
  induction t as [|c t IH]; intros b H; [now repeat split|].
  cbn [well_formed] in H.
  assert (Hc : is_upper c = false /\ is_space c = false /\
               exists b', well_formed b' t = true).
  { destruct (is_alnum c) eqn:C.
    - destruct (alnum_plain c C). eauto.
    - apply andb_true_iff in H as [H H3]. apply andb_true_iff in H as [H1 _].
      apply Ascii.eqb_eq in H1. subst c. repeat split; eauto. }
  destruct Hc as (Hu & Hs & b' & Hw).
  destruct (IH b' Hw) as (L & _ & E).
  cbn [toLowerCase trimStart trimEnd]. unfold lower_char.
  rewrite Hu, Hs, L, E. now repeat split.
Qed.

Lemma well_formed_chars (t : string) :
  forall b : bool,
    well_formed b t = true ->
    Forall (fun c => slug_char c = true) (list_ascii_of_string t).
Proof.
  induction t as [|c t IH]; intros b H; [constructor|].
  cbn [well_formed] in H. cbn [list_ascii_of_string]. unfold slug_char at 1.
  destruct (is_alnum c) eqn:C.
  - constructor; [now rewrite C | now apply (IH false)].
  - apply andb_true_iff in H as [H H3]. apply andb_true_iff in H as [H1 _].
    constructor; [now rewrite C, H1 | now apply (IH true)].
Qed.

Lemma well_formed_no_double (t : string) :
  forall b : bool, well_formed b t = true -> includes t "--" = false.
Proof.
  induction t as [|c t IH]; intros b H; [reflexivity|].
  cbn [well_formed] in H. cbn [includes].
  destruct (is_alnum c) eqn:C.
  - rewrite (IH false H), orb_false_r, prefix_cons.
    destruct (Ascii.eqb_spec "-" c) as [<-|_]; [discriminate C | reflexivity].
  - apply andb_true_iff in H as [H H3]. rewrite (IH true H3), orb_false_r.
    rewrite prefix_cons. destruct t as [|d t]; [now rewrite andb_false_r|].
    rewrite prefix_cons. cbn [well_formed] in H3.
    destruct (Ascii.eqb_spec "-" d) as [<-|_];
      [|now rewrite andb_false_r].
    replace (is_alnum "-") with false in H3 by reflexivity.
    cbn [negb andb] in H3. now rewrite andb_false_r in H3.
Qed.

(** X16: a slug holds only the characters [a-z], [0-9] and the hyphen,
    and never two hyphens in a row. *)
Theorem slugify_shape (s : string) :
  Forall (fun c => slug_char c = true) (list_ascii_of_string (slugify s)) /\
  includes (slugify s) "--" = false.
Proof.
  unfold slugify. split.
  - apply (well_formed_chars _ false), hyphenate_well_formed.
  - apply (well_formed_no_double _ false), hyphenate_well_formed.
Qed.

(** X17: the slug of a slug is the slug itself. *)
Theorem slugify_idempotent (s : string) : slugify (slugify s) = slugify s.
Proof.
  pose proof (hyphenate_well_formed (toLowerCase (trim s)) false) as W.
  fold (slugify s) in W.
  destruct (well_formed_plain (slugify s) false W) as (L & T1 & T2).
  unfold slugify at 1. unfold trim. rewrite T1, T2, L.
  now apply hyphenate_fixed.
Qed.

End SlugShapeFacts.

(** ** The strategy for other content URIs, and two more facts *)

Module ContentFacts.
Import JsString Http Env RelPath Handler Console StringFacts Shape SliceFacts.

(** What the content strategy returns when the root has no [::] and its
    last segment decodes to the beginning of the real path. *)
Lemma contentRelative_below (w : world) (rootFolder decoded pre rest : string) :
  let real := (strip_trailing_slashes decoded ++ "/" ++ rest)%string in
  includes (pre ++ "::" ++ real) "content://" = true ->
  includes (pre ++ ":") "::" = false ->
  includes real "::" = false ->
  includes rootFolder "::" = false ->
  includes (last_part (split rootFolder "/")) "%3A" = true ->
  decodeURIComponent w (last_part (split rootFolder "/")) = Some decoded ->
  leading_segment rest = true ->
  contentRelative w rootFolder (pre ++ "::" ++ real) = Some rest.
Proof.
  cbv zeta. intros Hc Hpre Hreal Hroot Henc Hdec Hseg. unfold contentRelative.
  rewrite Hc, (includes_middle pre "::" _). cbn [andb].
  rewrite (TermuxFacts.split_colons_at _ pre Hpre),
    (TermuxFacts.split_colons_none _ Hreal).
  cbn [nth_part nth_error].
  replace (truthy (strip_trailing_slashes decoded ++ "/" ++ rest)) with true
    by (symmetry; apply RelPathFacts.truthy_append_slash).
  rewrite Hroot. cbn [negb]. rewrite Hroot. cbn [negb]. rewrite Henc, Hdec.
  unfold startsWith. rewrite prefix_append, slice_from_append.
  destruct (TermuxFacts.strip_leading_segment rest Hseg) as [-> ->]. reflexivity.
Qed.

(** X18: for a folder opened through a content provider, whose uri has
    no [::] and ends with the percent-encoded name of the tree, a
    document is addressed by what follows the decoded name in the real
    path after [::]. *)
Theorem getRelativePath_content (w : world) (v : vars)
    (R P decoded pre rest : string) :
  pathName v = Some P ->
  termux_uri v = None ->
  addedFolder0 w = Some R ->
  includes P R = true ->
  truthy P = true ->
  startsWith R termuxRootEncoded = false ->
  includes R "?" = false ->
  includes P "?" = false ->
  includes R "::" = false ->
  includes (last_part (split R "/")) "%3A" = true ->
  decodeURIComponent w (last_part (split R "/")) = Some decoded ->
  Url_join w P (filename v)
    = (pre ++ "::" ++ strip_trailing_slashes decoded ++ "/" ++ rest)%string ->
  includes (pre ++ "::" ++ strip_trailing_slashes decoded ++ "/" ++ rest)
           "content://" = true ->
  includes (pre ++ "::" ++ strip_trailing_slashes decoded ++ "/" ++ rest)
           "com.termux.documents" = false ->
  includes (pre ++ ":") "::" = false ->
  includes (strip_trailing_slashes decoded ++ "/" ++ rest) "::" = false ->
  leading_segment rest = true ->
  getRelativePath w v = Ok rest.
Proof.
  intros Hpath Hu HR Hincl HtP HT Hq1 Hq2 Hcc Henc Hdec Hjoin Hc Hnt Hpre Hreal Hseg.
  unfold getRelativePath. rewrite Hpath.
  assert (Hinit : initialRoot w v P = R).
  { unfold initialRoot. now rewrite Hu, HR, HtP, Hincl. }
  rewrite Hinit. unfold makeUriAbsoluteIfNeeded. rewrite HT, Hq1, Hq2.
  rewrite !andb_false_r, Hjoin.
  unfold termuxRelative. rewrite Hnt. cbn [andb].
  now rewrite (contentRelative_below w R decoded pre rest
                 Hc Hpre Hreal Hcc Henc Hdec Hseg).
Qed.

(** X18, witness: [pages/index.html] in the folder [primary:site]. *)
Lemma getRelativePath_content_witness :
  getRelativePath
    (Sample2.decodingWorld Sample2.percent_decode (Some Sample3.safTree))
    Sample3.safSession = Ok "pages/index.html".
Proof.
  apply (getRelativePath_content
           (Sample2.decodingWorld Sample2.percent_decode (Some Sample3.safTree))
           Sample3.safSession Sample3.safTree Sample3.safDir "primary:site"
           Sample3.safTree "pages/index.html");
    reflexivity.
Defined.

(** X19: outside console mode, in a folder (the active file has a uri,
    is not in mode "single" and lies in a directory that is not empty), a
    target that [stat()] reports missing is answered by exactly one 404
    and nothing else, whatever its extension and whatever is open in the
    editor. *)
Theorem sendByExt_missing_target (w : world) (v : vars) (af : EditorFile)
    (p url0 ext reqPath reqId : string) (st : stats) (h : hstate) :
  isConsole v = false ->
  activeFile v = Some af ->
  String.eqb (mode af) "single" = false ->
  pathName v = Some p -> truthy p = true ->
  uri af = Some url0 ->
  fs_stat w (fullPathOf w p (strip_leading_slashes reqPath)) = Ok st ->
  st_exists st = false ->
  sendByExt w v ext reqPath reqId h = answered h (Status404 reqId).
Proof.
  intros Hc Ha Hm Hp Ht Hu Hs He. unfold sendByExt.
  rewrite Hc, Ha, Hm, Hp, Hu. cbn [andb truthy_opt]. rewrite Ht.
  unfold bind, await. rewrite Hs, He. reflexivity.
Qed.

(** X19, witness: [/src/app.js] on an empty disk. *)
Lemma sendByExt_missing_target_witness :
  sendByExt Scenario.emptyDisk Scenario.folderSession ".js" "src/app.js" "9"
    start_state = answered start_state (Status404 "9").
Proof.
  apply (sendByExt_missing_target Scenario.emptyDisk Scenario.folderSession
           (Scenario.fileAt "/proj") "/proj" "/proj/index.html" ".js"
           "src/app.js" "9" {| st_exists := false; st_isFile := false |}
           start_state); reflexivity.
Defined.

End ContentFacts.

(** ** Reviving the queue *)

Module RescueFacts.
Import JsString Http Fetch FetchCount.

Section WithCollaborators.
Variable getProtocol : string -> string.
Variable extname : string -> string.
Variable lookup : string -> option string.

(** X20: requests left in the queue by a failed read are not lost for
    good.  With the flag down and no read in flight, a call for a local
    file is answered at once, and it takes the request queued last out
    of the queue and starts its read. *)
Theorem sendFile_local_revives_queue (s : session) (d r : request)
    (q : list request) :
  isLoading s = false -> reading s = [] -> queue s = q ++ [r] ->
  scheme_of getProtocol d = LocalFile -> suspends getProtocol r ->
  sendFile getProtocol extname lookup s d =
    {| isLoading := true; queue := q; reading := [r];
       sent := sent s ++ [Status200Path (req_id d) (req_path d)
                            (lookup (extname (req_path d)))] |}.
Proof.
  intros Hl Hr Hq Hd Hs. unfold sendFile, sendFile_with. rewrite Hl, Hd.
  rewrite (FetchFacts.next_action_step getProtocol extname lookup).
  unfold serve, set_loading, send. cbn [queue]. rewrite Hq.
  rewrite FetchFacts.splice_last_snoc.
  unfold sendFile, sendFile_with, set_queue, suspends in *.
  cbn [isLoading].
  destruct (scheme_of getProtocol r); try (now elim Hs);
    unfold suspend, set_loading; cbn [isLoading queue reading sent];
    rewrite Hr; reflexivity.
Qed.

End WithCollaborators.

(** X20, witness: the read of [reqA] fails with [reqB] queued; then a
    local file is requested. *)
Lemma sendFile_local_revives_queue_witness :
  Sample.fetch_run initial
    [Call Sample.reqA; Call Sample.reqB; Settle 0 (Rejected "timeout");
     Call Sample3.reqLocal]
  = {| isLoading := true; queue := []; reading := [Sample.reqB];
       sent := [Status404 "1";
                Status200Path "5" "file:///sdcard/logo.png" (Some "image/png")] |}.
Proof.
  change (Sample.fetch_run initial
    [Call Sample.reqA; Call Sample.reqB; Settle 0 (Rejected "timeout");
     Call Sample3.reqLocal])
    with (sendFile Sample.protocol_of Sample.extname_of Sample.lookup_of
            {| isLoading := false; queue := [Sample.reqB]; reading := [];
               sent := [Status404 "1"] |} Sample3.reqLocal).
  exact (sendFile_local_revives_queue Sample.protocol_of Sample.extname_of
           Sample.lookup_of
           {| isLoading := false; queue := [Sample.reqB]; reading := [];
              sent := [Status404 "1"] |}
           Sample3.reqLocal Sample.reqB [] eq_refl eq_refl eq_refl eq_refl
           ltac:(discriminate)).
Defined.

End RescueFacts.
